(** * AutoByte Reviews: the static-site generator [generate_posts.py]

    A shallow embedding of the script and the properties of its five
    components: the slugifier, the fetcher, the page renderer, the site
    builder and the entry point.

    Data model.
    - A Python [str] is a sequence of Unicode code points: [list N].
      Literals of the script are written [lit "..."]; the double quote
      and the newline, which the script writes as escapes, are [dq] and
      [nl].
    - [str.lower()] maps ASCII letters itself; what it does to a code
      point of 128 or more comes from the Unicode tables and may depend
      on the characters around it (the final sigma). That table is the
      parameter [unicode_lower] of the development: every statement
      holds for every table.
    - The output directory is a finite map from paths to the text of the
      regular files below it, together with the log of the writes
      performed. Calls that fail in the operating system (a full disk,
      a missing permission) are outside the model: the statements are
      about runs in which every file operation succeeds. *)

From Stdlib Require Import String Ascii.
From stdpp Require Import gmap list.

Local Open Scope N_scope.

(** ** Strings *)

Abbreviation str := (list N).

Fixpoint lit (s : string) : str :=
  match s with
  | EmptyString => []
  | String a r => N_of_ascii a :: lit r
  end.

Definition dq : str := [34].
Definition nl : str := [10].
Definition hyphen : N := 45.
Definition plus_sign : N := 43.

(** The class [a-z0-9] of the pattern in [slugify]. *)
Definition is_az09 (c : N) : bool :=
  ((97 <=? c) && (c <=? 122)) || ((48 <=? c) && (c <=? 57)).

Definition ascii_lower (c : N) : N :=
  if (65 <=? c) && (c <=? 90) then c + 32 else c.

(** [s.strip(chars)]: the leading and the trailing characters that
    occur in [chars] are dropped. *)
Fixpoint lstrip (chars : str) (s : str) : str :=
  match s with
  | [] => []
  | c :: r => if existsb (N.eqb c) chars then lstrip chars r else s
  end.

Definition rstrip (chars : str) (s : str) : str :=
  rev (lstrip chars (rev s)).

Definition strip (chars : str) (s : str) : str :=
  rstrip chars (lstrip chars s).

(** [re.sub(pattern, repl, text)] for a pattern [C+] with [C] a
    character class. Scanning from the left, a match starts at the first
    character of the class and, [+] being greedy, runs up to the next
    character outside it; the whole match is replaced by [repl] and the
    scan goes on behind it. [in_match] tells that the scan is inside a
    match whose replacement has been emitted. *)
Fixpoint re_sub_class_plus (cls : N -> bool) (repl : str)
    (in_match : bool) (text : str) : str :=
  match text with
  | [] => []
  | c :: r =>
      if cls c
      then (if in_match then [] else repl) ++ re_sub_class_plus cls repl true r
      else c :: re_sub_class_plus cls repl false r
  end.

Definition re_sub_not_az09_plus (repl text : str) : str :=
  re_sub_class_plus (fun c => negb (is_az09 c)) repl false text.

Abbreviation sub_from b s :=
  (re_sub_class_plus (fun c => negb (is_az09 c)) [hyphen] b s).

(** [s.split(sep)] for a one-character separator: the pieces between
    the occurrences of [sep]; always at least one piece. *)
Fixpoint split (sep : N) (s : str) : list str :=
  match s with
  | [] => [[]]
  | c :: r =>
      if c =? sep then [] :: split sep r
      else match split sep r with
           | w :: ws => (c :: w) :: ws
           | [] => [[c]]
           end
  end.

(** [sep.join(parts)] *)
Fixpoint join (sep : str) (parts : list str) : str :=
  match parts with
  | [] => []
  | [p] => p
  | p :: ps => p ++ sep ++ join sep ps
  end.

(** The maximal runs of a string with respect to a class: consecutive
    characters on the same side of the class are grouped, each group
    tagged with its side. *)
Fixpoint runs (cls : N -> bool) (s : str) : list (bool * str) :=
  match s with
  | [] => []
  | c :: r =>
      match runs cls r with
      | (b, g) :: gs =>
          if Bool.eqb b (cls c) then (b, c :: g) :: gs
          else (cls c, [c]) :: (b, g) :: gs
      | [] => [(cls c, [c])]
      end
  end.

(** Two neighbours of a list of runs lie on different sides of the
    class: no run can be extended. *)
Fixpoint alternating (l : list (bool * str)) : Prop :=
  match l with
  | x :: ((y :: _) as r) => fst x <> fst y /\ alternating r
  | _ => True
  end.

(** The words of a string with respect to a class: its maximal runs
    inside the class, in order. *)
Definition words (cls : N -> bool) (s : str) : list str :=
  map snd (filter (fun bg => fst bg = true) (runs cls s)).

(** What the contract of the slugifier does with one run: a run outside
    [a-z0-9] becomes a single hyphen, a run inside is kept. *)
Definition collapse_run (g : bool * str) : str :=
  if fst g then snd g else [hyphen].

(** The shape of a slug: characters of [a-z0-9] and hyphens only, no
    hyphen at either end and no two hyphens in a row. *)
Definition is_slug_char (c : N) : bool := is_az09 c || (c =? hyphen).

Definition no_leading_hyphen (s : str) : bool :=
  match s with
  | [] => true
  | c :: _ => negb (c =? hyphen)
  end.

Fixpoint no_double_hyphen (s : str) : bool :=
  match s with
  | c :: ((d :: _) as r) =>
      negb ((c =? hyphen) && (d =? hyphen)) && no_double_hyphen r
  | _ => true
  end.

Definition slug_shape (s : str) : bool :=
  forallb is_slug_char s && no_leading_hyphen s
  && no_leading_hyphen (rev s) && no_double_hyphen s.

(** ** Exceptions

    The part of Python's exception hierarchy the script meets. The
    classes on the first line derive from [BaseException] only; all the
    others derive from [Exception]. *)
Inductive py_exception : Type :=
  | SystemExit | KeyboardInterrupt | GeneratorExit
  | ImportError (msg : str)
  | RequestException
  | HTTPError (status : Z)
  | OtherException (name : str).

(** [isinstance(e, Exception)], the test of an [except Exception]
    clause. *)
Definition isinstance_Exception (e : py_exception) : bool :=
  match e with
  | SystemExit | KeyboardInterrupt | GeneratorExit => false
  | _ => true
  end.

Inductive outcome (A : Type) : Type :=
  | Returned (a : A)
  | Raised (e : py_exception).
Arguments Returned {A} a.
Arguments Raised {A} e.

(** ** The fetcher *)

(** A parsed document, as far as the fetcher looks at it: for a
    selector, the texts [elem.get_text(strip=True)] of the elements that
    [soup.select(selector)] yields, in document order. *)
Abbreviation soup := (str -> list str).

Record response : Type := { status_code : Z; content : list N }.

(** The two optional imports of lines 5-10. [None] is the value the
    script binds when the import failed. *)
Record requests_module : Type :=
  { requests_get : str -> list (str * str) -> Z -> outcome response }.

Record bs4_module : Type :=
  { BeautifulSoup_new : list N -> str -> outcome soup }.

Record modules : Type :=
  { requests : option requests_module;
    BeautifulSoup : option bs4_module }.

(** The imports of lines 5-10. Each package is installed, and its import
    gives the module, or is not, and its import raises [ImportError]; as
    soon as one import fails the handler binds both names to [None]. *)
Definition import_modules (installed_requests : option requests_module)
    (installed_bs4 : option bs4_module) : modules :=
  match installed_requests, installed_bs4 with
  | Some rq, Some bs => {| requests := Some rq; BeautifulSoup := Some bs |}
  | _, _ => {| requests := None; BeautifulSoup := None |}
  end.

(** The network requests issued, in order. *)
Inductive event : Type :=
  | HttpGet (url : str) (headers : list (str * str)) (timeout : Z).

(** [response.raise_for_status()]: an [HTTPError] for a 4xx or 5xx
    status. *)
Definition raise_for_status (r : response) : outcome unit :=
  if ((400 <=? status_code r) && (status_code r <? 600))%Z
  then Raised (HTTPError (status_code r))
  else Returned tt.

Definition url : str := lit "https://www.amazon.com/Best-Sellers/zgbs".

Definition headers : list (str * str) :=
  [(lit "User-Agent",
    lit "Mozilla/5.0 (X11; Linux x86_64) AppleWebKit/537.36 "
    ++ lit "(KHTML, like Gecko) Chrome/87.0.4280.141 Safari/537.36")].

Definition selectors : list str :=
  [lit "div.p13n-sc-uncoverable-faceout a.a-link-normal div.p13n-sc-truncate";
   lit "span.zg-text-center-align div.a-section a.a-link-normal";
   lit "span.aok-inline-block a.a-link-normal"].

(** [len(names) >= max_items] *)
Definition quota_filled (max_items : Z) (names : list str) : bool :=
  (max_items <=? Z.of_nat (length names))%Z.

(** The inner loop, lines 42-47, from the value of [names] on entry to
    its value when the loop is left, by [break] or at the end of
    [elements]. *)
Fixpoint scan_elements (max_items : Z) (elements : list str)
    (names : list str) : list str :=
  match elements with
  | [] => names
  | text :: rest =>
      let names :=
        if negb (bool_decide (text = [])) && negb (bool_decide (text ∈ names))
        then names ++ [text] else names in
      if quota_filled max_items names then names
      else scan_elements max_items rest names
  end.

(** The outer loop, lines 40-49. *)
Fixpoint scan_selectors (max_items : Z) (doc : soup) (sels : list str)
    (names : list str) : list str :=
  match sels with
  | [] => names
  | selector :: rest =>
      let names := scan_elements max_items (doc selector) names in
      if quota_filled max_items names then names
      else scan_selectors max_items doc rest names
  end.

(** [fetch_best_sellers], lines 18-50: the requests issued and the
    result. *)
Definition fetch_best_sellers (m : modules) (max_items : Z)
    : list event * outcome (list str) :=
  match requests m, BeautifulSoup m with
  | Some rq, Some bs =>
      let trace := [HttpGet url headers 10] in
      match requests_get rq url headers 10 with
      | Raised e => (trace, Raised e)
      | Returned resp =>
          match raise_for_status resp with
          | Raised e => (trace, Raised e)
          | Returned _ =>
              match BeautifulSoup_new bs (content resp) (lit "html.parser") with
              | Raised e => (trace, Raised e)
              | Returned doc =>
                  (trace, Returned (scan_selectors max_items doc selectors []))
              end
          end
      end
  | _, _ =>
      ([], Raised (ImportError
        (lit "Required packages 'requests' and 'beautifulsoup4' not installed")))
  end.

(** The modules are there, the request is answered with a status that
    [raise_for_status] lets pass and the body parses to [doc]. *)
Definition serves (m : modules) (doc : soup) : Prop :=
  exists rq bs resp,
    requests m = Some rq /\ BeautifulSoup m = Some bs
    /\ requests_get rq url headers 10 = Returned resp
    /\ raise_for_status resp = Returned tt
    /\ BeautifulSoup_new bs (content resp) (lit "html.parser") = Returned doc.

(** The first occurrences of the elements of a list, in order. *)
Fixpoint first_occurrences (seen l : list str) : list str :=
  match l with
  | [] => []
  | x :: r =>
      if bool_decide (x ∈ seen) then first_occurrences seen r
      else x :: first_occurrences (seen ++ [x]) r
  end.

(** What the contract of the fetcher describes: the non-empty texts of
    the three selectors in priority order, without repetition, cut at
    [max_items]. *)
Definition fetch_contract (max_items : Z) (doc : soup) : list str :=
  take (Z.to_nat max_items)
    (first_occurrences []
       (filter (fun text => text ≠ []) (concat (map doc selectors)))).

(** ** The page renderer *)

(** [generate_post_html], lines 52-81. *)
Definition generate_post_html (title date_str product_name slug : str) : str :=
  let keywords := join [plus_sign] (split hyphen slug) in
  concat
    [ lit "<!DOCTYPE html>"; nl;
      lit "<html>"; nl;
      lit "<head>"; nl;
      lit "  <meta charset="; dq; lit "utf-8"; dq; lit ">"; nl;
      lit "  <title>"; title; lit "</title>"; nl;
      lit "  <link rel="; dq; lit "stylesheet"; dq; lit " href="; dq;
        lit "styles.css"; dq; lit ">"; nl;
      lit "</head>"; nl;
      lit "<body>"; nl;
      lit "  <h1>"; title; lit "</h1>"; nl;
      lit "  <p><em>"; date_str; lit "</em></p>"; nl;
      lit "  <h2>Overview</h2>"; nl;
      lit "  <p>"; product_name;
        lit " is trending on Amazon. This product has captured consumer interest because of its high quality and innovative features. In this review, we'll explore why it's so popular.</p>"; nl;
      lit "  <h2>Key Features</h2>"; nl;
      lit "  <ul>"; nl;
      lit "    <li>High quality materials</li>"; nl;
      lit "    <li>Excellent performance</li>"; nl;
      lit "    <li>Great value for the price</li>"; nl;
      lit "  </ul>"; nl;
      lit "  <h2>Conclusion</h2>"; nl;
      lit "  <p>If you're in the market for something new, "; product_name;
        lit " is worth considering. It's one of the top-selling items today.</p>"; nl;
      lit "  <p><a href="; dq; lit "https://www.amazon.com/s?k="; keywords;
        lit "&tag=YOUR_AFFILIATE_ID"; dq; lit ">Buy on Amazon</a></p>"; nl;
      lit "  <p><a href="; dq; lit "index.html"; dq;
        lit ">Back to Home</a></p>"; nl;
      lit "</body>"; nl;
      lit "</html>" ].

(** [t] occurs in [s] as a contiguous piece. *)
Definition occurs_in (t s : str) : Prop :=
  ∃ before after, s = before ++ t ++ after.

(** ** The file system *)

Record filesystem : Type :=
  { files : gmap str str;
    writes : list (str * str) }.

(** File operations thread the file system. *)
Definition io (A : Type) : Type := filesystem -> A * filesystem.

Definition ret {A} (a : A) : io A := fun fs => (a, fs).

Definition bind {A B} (m : io A) (k : A -> io B) : io B :=
  fun fs => let '(a, fs) := m fs in k a fs.

Notation "x <- m ;; k" := (bind m (fun x => k))
  (at level 100, m at next level, right associativity).
Notation "m ;;; k" := (bind m (fun _ => k))
  (at level 100, right associativity).

(** Two file systems hold the same files, but for the path [k]. *)
Definition same_but (k : str) (A B : filesystem) : Prop :=
  forall p, p <> k -> files A !! p = files B !! p.

(** [os.path.exists(path)] *)
Definition path_exists (path : str) : io bool :=
  fun fs => (bool_decide (is_Some (files fs !! path)), fs).

(** [with open(path, 'w', encoding='utf-8') as f: f.write(...)]: the
    file is created or truncated and holds what was written when the
    block is left. *)
Definition write_file (path text : str) : io unit :=
  fun fs => (tt, {| files := <[path := text]> (files fs);
                    writes := writes fs ++ [(path, text)] |}).

(** [os.makedirs(path, exist_ok=True)]: no file is created or changed. *)
Definition makedirs (path : str) : io unit := ret tt.

(** A [for] loop whose body updates a local variable and the file
    system. *)
Fixpoint for_each {A S} (xs : list A) (body : A -> S -> io S) (acc : S)
    : io S :=
  match xs with
  | [] => ret acc
  | x :: r => acc <- body x acc ;; for_each r body acc
  end.

(** [os.path.join(a, b)] on POSIX. *)
Definition slash : N := 47.

Definition path_join (a b : str) : str :=
  if bool_decide (head b = Some slash) then b
  else if bool_decide (a = []) || bool_decide (last a = Some slash)
       then a ++ b
       else a ++ [slash] ++ b.

Definition docs_dir : str := lit "docs".

Definition stylesheet : str :=
  concat
    [ lit "body {font-family: Arial, sans-serif; margin: 2rem; max-width: 800px;}"; nl;
      lit " h1 {color: #333;}"; nl;
      lit " a {color: #0366d6;}"; nl ].

Definition index_head : str :=
  concat
    [ lit "<!DOCTYPE html>"; nl;
      lit "<html>"; nl;
      lit "<head>"; nl;
      lit "<meta charset="; dq; lit "utf-8"; dq; lit ">"; nl;
      lit "<title>AutoByte Reviews</title>"; nl;
      lit "<link rel="; dq; lit "stylesheet"; dq; lit " href="; dq;
        lit "styles.css"; dq; lit ">"; nl;
      lit "</head>"; nl;
      lit "<body>"; nl;
      lit "<h1>AutoByte Reviews</h1>"; nl;
      lit "<p>Welcome to AutoByte Reviews. Here you will find AI-generated reviews of trending products.</p>"; nl;
      lit "<ul>"; nl ].

Definition index_foot : str :=
  concat [ lit "</ul>"; nl; lit "</body>"; nl; lit "</html>" ].

(** The line written for one element of [posts_info], line 127. *)
Definition index_item (post : str * str * str) : str :=
  let '(product, slug, date_str) := post in
  concat
    [ lit "<li><a href="; dq; slug; lit ".html"; dq; lit ">"; product;
      lit " Review</a> - "; date_str; lit "</li>"; nl ].

(** What the block of lines 113-130 writes to the file it opened. *)
Definition index_text (posts_info : list (str * str * str)) : str :=
  let f := index_head in
  let f := fold_left (fun f post => f ++ index_item post) posts_info f in
  f ++ index_foot.

Definition sample_products : list str :=
  [lit "Sample Product A"; lit "Sample Product B"; lit "Sample Product C"].

(** ** Sample environments *)

(** Neither import succeeded. *)
Definition no_modules : modules :=
  {| requests := None; BeautifulSoup := None |}.

(** Both imports succeeded, the request is answered with status 200 and
    the body parses to [doc]. *)
Definition modules_serving (doc : soup) : modules :=
  {| requests := Some {| requests_get := fun _ _ _ =>
       Returned {| status_code := 200; content := [] |} |};
     BeautifulSoup := Some {| BeautifulSoup_new := fun _ _ => Returned doc |} |}.

(** Both imports succeeded and the request is interrupted from the
    keyboard. *)
Definition modules_interrupted : modules :=
  {| requests := Some {| requests_get := fun _ _ _ => Raised KeyboardInterrupt |};
     BeautifulSoup := Some {| BeautifulSoup_new := fun _ _ => Returned (fun _ => []) |} |}.

(** A page on which the first selector finds one element and the
    others none. *)
Definition one_hit : soup :=
  fun selector =>
    if bool_decide (selector =
         lit "div.p13n-sc-uncoverable-faceout a.a-link-normal div.p13n-sc-truncate")
    then [lit "Widget"] else [].

(** A page on which the first selector finds four elements, one of them
    without text and one a repetition, and the second selector three,
    one of them known from the first. *)
Definition two_lists : soup :=
  fun selector =>
    if bool_decide (selector =
         lit "div.p13n-sc-uncoverable-faceout a.a-link-normal div.p13n-sc-truncate")
    then [lit "Kettle"; []; lit "Lamp"; lit "Kettle"]
    else if bool_decide (selector =
         lit "span.zg-text-center-align div.a-section a.a-link-normal")
    then [lit "Lamp"; lit "Mug"; lit "Nails"]
    else [].

(** Both imports succeeded and the request is answered with status
    404. *)
Definition modules_not_found : modules :=
  {| requests := Some {| requests_get := fun _ _ _ =>
       Returned {| status_code := 404; content := [] |} |};
     BeautifulSoup := Some {| BeautifulSoup_new := fun _ _ =>
       Returned (fun _ => []) |} |}.

(** A lower-case table that leaves the code points beyond ASCII as they
    are. *)
Definition identity_table : str -> N -> str -> str := fun _ c _ => [c].

Definition empty_fs : filesystem := {| files := ∅; writes := [] |}.

(** An output directory that holds one file, [docs/index.html]. *)
Definition fs_with_index : filesystem :=
  {| files := {[ lit "docs/index.html" := lit "custom" ]}; writes := [] |}.

(** An output directory that holds one page, edited by hand. *)
Definition fs_with_page : filesystem :=
  {| files := {[ lit "docs/widget-x.html" := lit "custom" ]}; writes := [] |}.

Section Site.

(** The lower-case mapping of the code points beyond ASCII, given the
    characters before and after the one mapped. *)
Variable unicode_lower : str -> N -> str -> str.

(** ** The slugifier *)

Definition lower_at (before : str) (c : N) (after : str) : str :=
  if c <? 128 then [ascii_lower c] else unicode_lower before c after.

Fixpoint lower_from (before text : str) : str :=
  match text with
  | [] => []
  | c :: r => lower_at before c r ++ lower_from (before ++ [c]) r
  end.

(** [text.lower()] *)
Definition str_lower (text : str) : str := lower_from [] text.

(** [slugify], lines 12-16. *)
Definition slugify (text : str) : str :=
  let text := str_lower text in
  let text := re_sub_not_az09_plus [hyphen] text in
  strip [hyphen] text.

(** ** The site builder *)

(** The body of the loop of lines 100-110. *)
Definition build_page (today : str) (product : str)
    (posts_info : list (str * str * str)) : io (list (str * str * str)) :=
  let slug := slugify product in
  let filename := slug ++ lit ".html" in
  let filepath := path_join docs_dir filename in
  present <- path_exists filepath ;;
  (if negb present
   then
     let title := product ++ lit " Review" in
     let html_content := generate_post_html title today product slug in
     write_file filepath html_content
   else ret tt) ;;;
  ret (posts_info ++ [(product, slug, today)]).

(** [build_site], lines 83-130. [today] is the value of
    [datetime.utcnow().strftime('%Y-%m-%d')] during the run. *)
Definition build_site (product_names : list str) (today : str) : io unit :=
  makedirs docs_dir ;;;
  let style_path := path_join docs_dir (lit "styles.css") in
  present <- path_exists style_path ;;
  (if negb present then write_file style_path stylesheet else ret tt) ;;;
  posts_info <- for_each product_names (build_page today) [] ;;
  let index_path := path_join docs_dir (lit "index.html") in
  write_file index_path (index_text posts_info).

(** The paths and texts of a run, as the statements below name them. *)
Definition style_path : str := lit "docs/styles.css".
Definition index_path : str := lit "docs/index.html".

Definition page_path (product : str) : str :=
  lit "docs/" ++ slugify product ++ lit ".html".

Definition page_html (today product : str) : str :=
  generate_post_html (product ++ lit " Review") today product (slugify product).

(** The entry of the index for a product: a link to [<slug>.html]
    labelled [<product> Review], followed by the date. *)
Definition index_line (today product : str) : str :=
  lit "<li><a href=" ++ dq ++ slugify product ++ lit ".html" ++ dq ++ lit ">"
  ++ product ++ lit " Review</a> - " ++ today ++ lit "</li>" ++ nl.

Definition index_page (today : str) (products : list str) : str :=
  index_head ++ concat (map (index_line today) products) ++ index_foot.

(** A write that is skipped when the file exists. *)
Definition write_new (path text : str) (fs : filesystem) : filesystem :=
  if bool_decide (is_Some (files fs !! path)) then fs
  else {| files := <[path := text]> (files fs);
          writes := writes fs ++ [(path, text)] |}.

Fixpoint write_pages (today : str) (products : list str) (fs : filesystem)
    : filesystem :=
  match products with
  | [] => fs
  | p :: r => write_pages today r (write_new (page_path p) (page_html today p) fs)
  end.

(** [adds ok fs fs' W]: from [fs] to [fs'] the writes [W] were performed,
    each of them allowed by [ok] and to a path at which [fs] has no
    file; the files of [fs] are in [fs'] as they were. *)
Record adds (ok : str * str -> Prop) (fs fs' : filesystem)
    (W : list (str * str)) : Prop :=
  { adds_log : writes fs' = writes fs ++ W;
    adds_new : Forall (fun w => files fs !! w.1 = None /\ ok w) W;
    adds_keep : forall p v, files fs !! p = Some v -> files fs' !! p = Some v;
    adds_frame : forall p, (forall c, (p, c) ∉ W) ->
                 files fs' !! p = files fs !! p }.

(** ** The entry point *)

(** The value of [names] at line 142, or the exception that leaves
    [main]. *)
Definition main_names (m : modules) : list event * outcome (list str) :=
  let '(trace, r) := fetch_best_sellers m 3 in
  match r with
  | Returned names => (trace, Returned names)
  | Raised e =>
      if isinstance_Exception e then (trace, Returned sample_products)
      else (trace, Raised e)
  end.

(** [main], lines 132-142. *)
Definition main (m : modules) (today : str) (fs : filesystem)
    : list event * outcome filesystem :=
  let '(trace, r) := main_names m in
  match r with
  | Returned names => (trace, Returned (snd (build_site names today fs)))
  | Raised e => (trace, Raised e)
  end.

(** The script run as a program, lines 5-10 and 144-145: the imports,
    then [main]. *)
Definition script (installed_requests : option requests_module)
    (installed_bs4 : option bs4_module) (today : str) (fs : filesystem)
    : list event * outcome filesystem :=
  main (import_modules installed_requests installed_bs4) today fs.

(** * Properties *)

(** ** Characters *)

Ltac char_cases :=
  unfold is_slug_char, is_az09, ascii_lower, hyphen in *;
  repeat match goal with
  | |- context [N.leb ?a ?b] => destruct (N.leb_spec a b)
  | |- context [N.ltb ?a ?b] => destruct (N.ltb_spec a b)
  | |- context [N.eqb ?a ?b] => destruct (N.eqb_spec a b)
  | H : context [N.leb ?a ?b] |- _ => destruct (N.leb_spec a b)
  | H : context [N.ltb ?a ?b] |- _ => destruct (N.ltb_spec a b)
  | H : context [N.eqb ?a ?b] |- _ => destruct (N.eqb_spec a b)
  end;
  simpl in *; try congruence; try lia.

Lemma az09_not_hyphen c : is_az09 c = true -> (c =? hyphen) = false.
Proof. char_cases. Qed.

Lemma slug_char_cases c :
  is_slug_char c = true -> is_az09 c = true \/ (is_az09 c = false /\ c = hyphen).
Proof. char_cases; auto. Qed.

Lemma slug_char_lower before c after :
  is_slug_char c = true -> lower_at before c after = [c].
Proof. unfold lower_at. char_cases. Qed.

(** ** Maximal runs *)

(** The runs of a string, put end to end, give the string back. *)
Lemma runs_concat cls s : concat (map snd (runs cls s)) = s.
Proof.
  induction s as [|c r IH]; simpl; [reflexivity|].
  destruct (runs cls r) as [|[b g] gs]; simpl in *.
  - now subst r.
  - destruct (Bool.eqb b (cls c)); simpl; now rewrite <- IH.
Qed.

(** Every run is non-empty and lies on one side of the class. *)
Lemma runs_uniform cls s :
  Forall (fun bg => snd bg <> [] /\ Forall (fun c => cls c = fst bg) (snd bg))
         (runs cls s).
Proof.
  induction s as [|c r IH]; simpl; [constructor|].
  destruct (runs cls r) as [|[b g] gs]; simpl in *.
  - constructor; [|constructor]. simpl. split; [discriminate|].
    constructor; [reflexivity | constructor].
  - destruct (Bool.eqb_spec b (cls c)) as [->|Hne].
    + inversion IH as [|? ? [_ Hg] Hgs]; subst; simpl in *.
      constructor; [|assumption]. simpl.
      split; [discriminate | constructor; [reflexivity | assumption]].
    + constructor; [|assumption]. simpl. split; [discriminate|].
      constructor; [reflexivity | constructor].
Qed.

(** The runs are maximal. *)
Lemma runs_maximal cls s : alternating (runs cls s).
Proof.
  induction s as [|c r IH]; simpl; [exact I|].
  destruct (runs cls r) as [|[b g] gs]; simpl in *; [exact I|].
  destruct (Bool.eqb_spec b (cls c)) as [->|Hne]; simpl.
  - destruct gs; auto.
  - split; [congruence | exact IH].
Qed.

(** ** The substitution of [slugify] *)

(** The scan of [re.sub] replaces exactly the maximal runs outside the
    class; when it starts inside a match, the first run, if outside, has
    got its hyphen already. *)
Lemma re_sub_runs b s :
  sub_from b s =
  match b, runs is_az09 s with
  | true, (false, _) :: gs => concat (map collapse_run gs)
  | _, l => concat (map collapse_run l)
  end.
Proof.
  revert b; induction s as [|c r IH]; intros b; simpl.
  - now destruct b.
  - pose proof (IH true) as IHt. pose proof (IH false) as IHf.
    destruct (is_az09 c) eqn:Hc; simpl.
    + rewrite IHf. destruct (runs is_az09 r) as [|[[] g] gs]; simpl;
        now destruct b.
    + rewrite IHt. destruct (runs is_az09 r) as [|[[] g] gs]; simpl;
        now destruct b.
Qed.

(** The output of the substitution: slug characters, no two hyphens in
    a row, and no hyphen in front when the scan started inside a match. *)
Lemma re_sub_slug_chars b s : forallb is_slug_char (sub_from b s) = true.
Proof.
  revert b; induction s as [|c r IH]; intros b; simpl; [reflexivity|].
  destruct (is_az09 c) eqn:Hz; simpl.
  - rewrite IH. unfold is_slug_char. now rewrite Hz.
  - destruct b; simpl; now rewrite IH.
Qed.

Lemma no_double_cons c s :
  no_double_hyphen (c :: s) =
  negb ((c =? hyphen) && negb (no_leading_hyphen s)) && no_double_hyphen s.
Proof.
  destruct s as [|d s]; simpl.
  - now rewrite andb_false_r.
  - now rewrite negb_involutive.
Qed.

Lemma re_sub_hyphens b s :
  no_double_hyphen (sub_from b s) = true
  /\ (b = true -> no_leading_hyphen (sub_from b s) = true).
Proof.
  revert b; induction s as [|c r IH]; intros b; simpl; [auto|].
  destruct (IH true) as [Ht1 Ht2]. destruct (IH false) as [Hf1 _].
  destruct (is_az09 c) eqn:Hz; simpl.
  - split.
    + change (no_double_hyphen (c :: sub_from false r) = true).
      rewrite no_double_cons, Hf1, (az09_not_hyphen c Hz). reflexivity.
    + intros _. now rewrite (az09_not_hyphen c Hz).
  - destruct b; simpl.
    + auto.
    + split; [|discriminate].
      change (no_double_hyphen (hyphen :: sub_from true r) = true).
      rewrite no_double_cons, Ht1, Ht2 by reflexivity. reflexivity.
Qed.

(** ** Stripping *)

Lemma lstrip_suffix cs s : exists p, s = p ++ lstrip cs s.
Proof.
  induction s as [|c r [p IH]]; simpl.
  - now exists [].
  - destruct (existsb (N.eqb c) cs).
    + exists (c :: p). simpl. now f_equal.
    + now exists [].
Qed.

Lemma rstrip_prefix cs s : exists t, s = rstrip cs s ++ t.
Proof.
  unfold rstrip. destruct (lstrip_suffix cs (rev s)) as [p Hp].
  exists (rev p). rewrite <- rev_app_distr, <- Hp. symmetry. apply rev_involutive.
Qed.

Lemma lstrip_no_leading s : no_leading_hyphen (lstrip [hyphen] s) = true.
Proof.
  induction s as [|c r IH]; simpl; [reflexivity|].
  rewrite orb_false_r. destruct (c =? hyphen) eqn:E; [assumption|].
  simpl. now rewrite E.
Qed.

Lemma lstrip_id s : no_leading_hyphen s = true -> lstrip [hyphen] s = s.
Proof.
  destruct s as [|c r]; simpl; [reflexivity|]. rewrite orb_false_r.
  now destruct (c =? hyphen).
Qed.

Lemma no_leading_prefix a b :
  no_leading_hyphen (a ++ b) = true -> no_leading_hyphen a = true.
Proof. now destruct a. Qed.

Lemma no_double_app a b :
  no_double_hyphen (a ++ b) = true ->
  no_double_hyphen a = true /\ no_double_hyphen b = true.
Proof.
  induction a as [|c a IH]; [now split|]. simpl app.
  rewrite !no_double_cons, !andb_true_iff. intros [H1 H2].
  destruct (IH H2) as [Ha Hb]. repeat split; try assumption.
  destruct a; simpl in *; [now rewrite andb_false_r | assumption].
Qed.

(** ** The slugifier *)

(** The result of [slugify] has the shape of a slug. *)
Lemma slugify_shape text : slug_shape (slugify text) = true.
Proof.
  unfold slugify, re_sub_not_az09_plus, strip.
  set (t := sub_from false (str_lower text)).
  assert (Hc : forallb is_slug_char t = true) by apply re_sub_slug_chars.
  assert (Hd : no_double_hyphen t = true) by apply re_sub_hyphens.
  destruct (lstrip_suffix [hyphen] t) as [p Hp].
  pose proof (lstrip_no_leading t) as Hl.
  set (u := lstrip [hyphen] t) in *.
  rewrite Hp, forallb_app, andb_true_iff in Hc. destruct Hc as [_ Hc].
  rewrite Hp in Hd. apply no_double_app in Hd as [_ Hd].
  destruct (rstrip_prefix [hyphen] u) as [w Hw].
  assert (Hr : no_leading_hyphen (rev (rstrip [hyphen] u)) = true).
  { unfold rstrip. rewrite rev_involutive. apply lstrip_no_leading. }
  set (v := rstrip [hyphen] u) in *.
  rewrite Hw, forallb_app, andb_true_iff in Hc. destruct Hc as [Hc _].
  rewrite Hw in Hd. apply no_double_app in Hd as [Hd _].
  rewrite Hw in Hl. apply no_leading_prefix in Hl.
  unfold slug_shape. now rewrite Hc, Hl, Hr, Hd.
Qed.

Lemma lower_from_slug before s :
  forallb is_slug_char s = true -> lower_from before s = s.
Proof.
  revert before; induction s as [|c r IH]; intros before; simpl; [reflexivity|].
  rewrite andb_true_iff. intros [Hc Hr].
  now rewrite slug_char_lower, IH.
Qed.

Lemma sub_from_slug b s :
  forallb is_slug_char s = true -> no_double_hyphen s = true ->
  (b = true -> no_leading_hyphen s = true) ->
  sub_from b s = s.
Proof.
  revert b; induction s as [|c r IH]; intros b; [reflexivity|].
  rewrite no_double_cons. simpl. rewrite !andb_true_iff.
  intros [Hc Hr] [Hh Hd] Hb.
  destruct (slug_char_cases c Hc) as [Hz|[Hz ->]]; rewrite Hz; simpl.
  - f_equal. apply IH; auto. discriminate.
  - destruct b; [specialize (Hb eq_refl); discriminate|]. simpl.
    f_equal. apply IH; auto. intros _.
    simpl in Hh. now destruct (no_leading_hyphen r).
Qed.

(** A string that has the shape of a slug is its own slug. *)
Lemma slug_shape_fixed s : slug_shape s = true -> slugify s = s.
Proof.
  unfold slug_shape. rewrite !andb_true_iff. intros [[[Hc Hl] Hr] Hd].
  unfold slugify, str_lower, re_sub_not_az09_plus, strip, rstrip.
  rewrite lower_from_slug, sub_from_slug by (auto; discriminate).
  rewrite (lstrip_id s Hl), (lstrip_id (rev s) Hr). apply rev_involutive.
Qed.

(** C3. For every text, [slugify] returns the lower-cased text in which
    each maximal run of characters outside [a-z0-9] is replaced by one
    hyphen and the hyphens at both ends are removed. Here the runs of a
    string are its maximal runs: put end to end they give the string,
    each is non-empty and on one side of the class, and two neighbours
    are on different sides. [slugify] is defined on every text, the
    empty text gives the empty slug, and ["Sample Product A!"] gives
    ["sample-product-a"]. *)
Theorem slugify_meets_contract :
  (forall text,
     slugify text
     = strip [hyphen]
         (concat (map collapse_run (runs is_az09 (str_lower text)))))
  /\ (forall s,
       concat (map snd (runs is_az09 s)) = s
       /\ Forall (fun bg => snd bg <> []
                          /\ Forall (fun c => is_az09 c = fst bg) (snd bg))
            (runs is_az09 s)
       /\ alternating (runs is_az09 s))
  /\ slugify [] = []
  /\ slugify (lit "Sample Product A!") = lit "sample-product-a".
Proof.
  split; [|split; [|split; reflexivity]].
  - intros text. unfold slugify, re_sub_not_az09_plus.
    now rewrite re_sub_runs.
  - intros s. split; [apply runs_concat|].
    split; [apply runs_uniform | apply runs_maximal].
Qed.

(** C9. [slugify] is idempotent: its result consists of characters of
    [a-z0-9] and single hyphens between them, none at either end, and
    slugifying such a string gives it back. *)
Theorem slugify_idempotent text :
  slug_shape (slugify text) = true
  /\ slugify (slugify text) = slugify text.
Proof.
  split; [apply slugify_shape|]. apply slug_shape_fixed, slugify_shape.
Qed.

(** ** The fetcher *)

Lemma quota_filled_iff n names :
  (1 <= n)%Z ->
  quota_filled n names = true <-> (Z.to_nat n <= length names)%nat.
Proof. intros Hn. unfold quota_filled. rewrite Z.leb_le. lia. Qed.

Lemma quota_open n names :
  (1 <= n)%Z -> (length names < Z.to_nat n)%nat -> quota_filled n names = false.
Proof.
  intros Hn Hlt. apply not_true_is_false. rewrite quota_filled_iff by assumption.
  lia.
Qed.

(** The inner loop, entered below the quota, appends the new non-empty
    texts in order until the quota is reached. *)
Lemma scan_elements_spec n elements names :
  (1 <= n)%Z -> (length names < Z.to_nat n)%nat ->
  scan_elements n elements names =
  names ++ take (Z.to_nat n - length names)
             (first_occurrences names (filter (fun t => t <> []) elements)).
Proof.
  intros Hn. revert names.
  induction elements as [|text rest IH]; intros names Hlt; simpl.
  - now rewrite take_nil, app_nil_r.
  - rewrite filter_cons. destruct (decide (text <> [])) as [Hne|He].
    + rewrite (bool_decide_eq_false_2 _ Hne). simpl.
      destruct (bool_decide (text ∈ names)) eqn:Hin; simpl.
      * rewrite quota_open by assumption. now apply IH.
      * replace (Z.to_nat n - length names)%nat
          with (S (Z.to_nat n - length (names ++ [text])))%nat
          by (rewrite length_app; simpl; lia).
        simpl. destruct (quota_filled n (names ++ [text])) eqn:Hq.
        -- apply quota_filled_iff in Hq; [|assumption].
           replace (Z.to_nat n - length (names ++ [text]))%nat with 0%nat by lia.
           now rewrite take_0.
        -- rewrite IH.
           ++ now rewrite <- app_assoc.
           ++ destruct (Nat.lt_ge_cases (length (names ++ [text])) (Z.to_nat n))
                as [H|H]; [assumption|].
              apply quota_filled_iff in H; [congruence | assumption].
    + apply dec_stable in He. subst text. simpl.
      rewrite quota_open by assumption. now apply IH.
Qed.

Lemma first_occurrences_app seen a b :
  first_occurrences seen (a ++ b) =
  first_occurrences seen a
  ++ first_occurrences (seen ++ first_occurrences seen a) b.
Proof.
  revert seen; induction a as [|x a IH]; intros seen; simpl.
  - now rewrite app_nil_r.
  - destruct (bool_decide (x ∈ seen)); [apply IH|].
    simpl. rewrite IH. now rewrite <- app_assoc.
Qed.

(** The outer loop, entered below the quota. *)
Lemma scan_selectors_spec n (doc : soup) sels names :
  (1 <= n)%Z -> (length names < Z.to_nat n)%nat ->
  scan_selectors n doc sels names =
  names ++ take (Z.to_nat n - length names)
             (first_occurrences names
                (filter (fun t => t <> []) (concat (map doc sels)))).
Proof.
  intros Hn. revert names.
  induction sels as [|sel rest IH]; intros names Hlt; simpl.
  - now rewrite take_nil, app_nil_r.
  - rewrite scan_elements_spec by assumption.
    rewrite filter_app, first_occurrences_app.
    set (found := first_occurrences names (filter _ (doc sel))).
    set (k := (Z.to_nat n - length names)%nat).
    destruct (quota_filled n (names ++ take k found)) eqn:Hq.
    + apply quota_filled_iff in Hq; [|assumption].
      rewrite length_app, length_take in Hq.
      rewrite take_app_le by lia. reflexivity.
    + assert (Hshort : (length (names ++ take k found) < Z.to_nat n)%nat).
      { destruct (Nat.lt_ge_cases (length (names ++ take k found)) (Z.to_nat n))
          as [H|H]; [assumption|].
        apply quota_filled_iff in H; [congruence | assumption]. }
      rewrite length_app, length_take in Hshort.
      assert (Hall : take k found = found) by (apply take_ge; lia).
      rewrite Hall. rewrite IH by (rewrite length_app; lia).
      rewrite <- app_assoc. f_equal.
      rewrite take_app_ge by lia. f_equal. f_equal.
      rewrite length_app. lia.
Qed.

Lemma first_occurrences_fresh seen l :
  NoDup (first_occurrences seen l)
  /\ forall x, x ∈ first_occurrences seen l -> (x ∉ seen) /\ (x ∈ l).
Proof.
  revert seen; induction l as [|x l IH]; intros seen; simpl.
  - split; [constructor | intros x Hx; inversion Hx].
  - destruct (bool_decide (x ∈ seen)) eqn:Hin.
    + destruct (IH seen) as [Hnd Hfr]. split; [assumption|].
      intros y Hy. destruct (Hfr y Hy). split; [assumption | now right].
    + apply bool_decide_eq_false in Hin.
      destruct (IH (seen ++ [x])) as [Hnd Hfr]. split.
      * constructor; [|assumption]. intros Hx. apply Hfr in Hx as [Hx _].
        apply Hx. apply elem_of_app. right. now left.
      * intros y Hy. apply elem_of_cons in Hy as [->|Hy].
        -- split; [assumption | now left].
        -- apply Hfr in Hy as [Hy1 Hy2]. split; [|now right].
           intros Hs. apply Hy1. apply elem_of_app. now left.
Qed.

(** For a quota of one or more, the fetcher returns what its contract
    says: at most [max_items] distinct non-empty texts, those of the
    selectors in priority order, each at its first appearance. *)
Lemma fetch_meets_contract_positive max_items (doc : soup) :
  (1 <= max_items)%Z ->
  let names := scan_selectors max_items doc selectors [] in
  names = fetch_contract max_items doc
  /\ (Z.of_nat (length names) <= max_items)%Z
  /\ NoDup names
  /\ Forall (fun text => text <> []) names.
Proof.
  intros Hn names.
  assert (Heq : names = fetch_contract max_items doc).
  { unfold names. rewrite scan_selectors_spec by (simpl; lia).
    simpl length. rewrite Nat.sub_0_r. reflexivity. }
  split; [exact Heq|]. rewrite Heq. unfold fetch_contract.
  set (l := filter _ _).
  destruct (first_occurrences_fresh [] l) as [Hnd Hfr].
  repeat split.
  - rewrite length_take. lia.
  - eapply sublist_NoDup; [exact Hnd | apply sublist_take].
  - apply Forall_forall. intros x Hx.
    apply elem_of_take in Hx as (i & Hx & _).
    apply list_elem_of_lookup_2 in Hx.
    apply Hfr in Hx as [_ Hx]. unfold l in Hx.
    now apply list_elem_of_filter in Hx as [Hx _].
Qed.

(** ** The page renderer *)

Lemma split_nonempty sep s : split sep s <> [].
Proof.
  destruct s as [|c r]; simpl; [discriminate|].
  destruct (c =? sep); [discriminate|]. now destruct (split sep r).
Qed.

(** Splitting at the hyphens and joining with a plus sign turns every
    hyphen into a plus sign. *)
Lemma join_split_plus s :
  join [plus_sign] (split hyphen s) =
  map (fun c => if c =? hyphen then plus_sign else c) s.
Proof.
  induction s as [|c r IH]; simpl; [reflexivity|].
  pose proof (split_nonempty hyphen r) as Hne.
  destruct (c =? hyphen); simpl.
  - destruct (split hyphen r) as [|w ws]; [contradiction|]. now rewrite <- IH.
  - destruct (split hyphen r) as [|w ws]; [contradiction|]. rewrite <- IH.
    now destruct ws.
Qed.

Lemma occurs_in_pieces (i n : nat) (pieces : list str) :
  occurs_in (concat (take n (drop i pieces))) (concat pieces).
Proof.
  exists (concat (take i pieces)), (concat (drop n (drop i pieces))).
  rewrite <- !concat_app, !take_drop. reflexivity.
Qed.

Lemma occurs_in_inside t a b s :
  occurs_in (a ++ t ++ b) s -> occurs_in t s.
Proof.
  intros (x & y & ->). exists (x ++ a), (b ++ y).
  now rewrite <- !app_assoc.
Qed.


Ltac find_pieces i n before after :=
  apply (occurs_in_inside _ before after);
  unfold generate_post_html;
  match goal with
  | |- occurs_in ?t (concat ?pieces) =>
      replace t with (concat (take n (drop i pieces)));
      [apply occurs_in_pieces
      |cbn [take drop concat]; rewrite <- ?app_assoc; reflexivity]
  end.

(** C8. [generate_post_html] is a function of its four arguments: equal
    arguments give the same text and every argument gives a text. The
    text contains an [<h1>] element holding the title and a link whose
    address is the search address, the tokens of the slug joined with
    plus signs (each hyphen of the slug turned into a plus sign) and the
    affiliate-tag placeholder. *)
Theorem generate_post_html_pure
    (title date_str product_name slug title' date_str' product_name' slug' : str) :
  title = title' -> date_str = date_str' ->
  product_name = product_name' -> slug = slug' ->
  generate_post_html title date_str product_name slug
  = generate_post_html title' date_str' product_name' slug'
  /\ occurs_in (lit "<h1>" ++ title ++ lit "</h1>")
       (generate_post_html title date_str product_name slug)
  /\ occurs_in
       (lit "<a href=" ++ dq ++ lit "https://www.amazon.com/s?k="
        ++ join [plus_sign] (split hyphen slug)
        ++ lit "&tag=YOUR_AFFILIATE_ID" ++ dq ++ lit ">Buy on Amazon</a>")
       (generate_post_html title date_str product_name slug)
  /\ join [plus_sign] (split hyphen slug)
     = map (fun c => if c =? hyphen then plus_sign else c) slug.
Proof.
  intros <- <- <- <-. split; [reflexivity|]. split; [|split].
  - find_pieces 30%nat 3%nat (lit "  ") (@nil N).
  - find_pieces 62%nat 7%nat (lit "  <p>") (lit "</p>").
  - apply join_split_plus.
Qed.

(** C7. When one of the two modules is missing, [fetch_best_sellers]
    raises [ImportError] and has issued no network request. *)
Theorem fetch_without_modules m max_items :
  requests m = None \/ BeautifulSoup m = None ->
  exists msg, fetch_best_sellers m max_items = ([], Raised (ImportError msg)).
Proof.
  intros H. unfold fetch_best_sellers. eexists.
  destruct (requests m), (BeautifulSoup m); try reflexivity.
  destruct H; discriminate.
Qed.

(** C4, at a quota of zero. The quota is tested after a text has been
    appended, so a request for no item at all returns the first text of
    the page: one name, where the contract allows none. *)
Theorem fetch_quota_zero_returns_one :
  fetch_best_sellers (modules_serving one_hit) 0
  = ([HttpGet url headers 10], Returned [lit "Widget"])
  /\ fetch_contract 0 one_hit = []
  /\ ~ (Z.of_nat (length [lit "Widget"]) <= 0)%Z.
Proof. split; [reflexivity|]. split; [reflexivity|]. simpl. lia. Qed.


(** ** The site builder *)

Lemma page_name_not_absolute product :
  head (slugify product ++ lit ".html") <> Some slash.
Proof.
  pose proof (slugify_shape product) as H. unfold slug_shape in H.
  rewrite !andb_true_iff in H. destruct H as [[[H _] _] _].
  destruct (slugify product) as [|c r]; simpl in *; [discriminate|].
  apply andb_true_iff in H as [H _]. intros [= ->]. discriminate.
Qed.

Lemma path_join_page product :
  path_join docs_dir (slugify product ++ lit ".html") = page_path product.
Proof.
  unfold path_join.
  rewrite (bool_decide_eq_false_2 _ (page_name_not_absolute product)).
  reflexivity.
Qed.

Lemma page_path_slug x y : page_path x = page_path y -> slugify x = slugify y.
Proof.
  unfold page_path. intros H. apply app_inv_head in H.
  now apply app_inv_tail in H.
Qed.

Lemma style_path_not_page x : style_path <> page_path x.
Proof.
  unfold style_path, page_path. intros H.
  change (lit "docs/" ++ lit "styles.css" = lit "docs/" ++ slugify x ++ lit ".html") in H.
  apply app_inv_head in H. apply (f_equal (@rev N)) in H.
  rewrite rev_app_distr in H. discriminate.
Qed.

Lemma build_page_run today product posts_info fs :
  build_page today product posts_info fs =
  (posts_info ++ [(product, slugify product, today)],
   write_new (page_path product) (page_html today product) fs).
Proof.
  unfold build_page, bind, path_exists, write_file, ret, write_new.
  rewrite path_join_page.
  now destruct (bool_decide (is_Some (files fs !! page_path product))).
Qed.

Lemma for_each_pages today products posts_info fs :
  for_each products (build_page today) posts_info fs =
  (posts_info ++ map (fun p => (p, slugify p, today)) products,
   write_pages today products fs).
Proof.
  revert posts_info fs; induction products as [|p r IH]; intros posts_info fs.
  - simpl. unfold ret. now rewrite app_nil_r.
  - simpl. unfold bind. rewrite build_page_run, IH.
    now rewrite <- app_assoc.
Qed.

Lemma index_text_page today products :
  index_text (map (fun p => (p, slugify p, today)) products)
  = index_page today products.
Proof.
  unfold index_text, index_page.
  assert (H : forall l f,
    fold_left (fun f post => f ++ index_item post)
      (map (fun p => (p, slugify p, today)) l) f
    = f ++ concat (map (index_line today) l)).
  { induction l as [|p l IH]; intros f; cbn [map fold_left concat].
    - now rewrite app_nil_r.
    - rewrite IH. unfold index_item, index_line. cbn [concat].
      rewrite <- !app_assoc. reflexivity. }
  rewrite H. now rewrite <- app_assoc.
Qed.

(** A run of [build_site], phase by phase. *)
Lemma build_site_run products today fs :
  snd (build_site products today fs) =
  let fs2 := write_pages today products (write_new style_path stylesheet fs) in
  {| files := <[index_path := index_page today products]> (files fs2);
     writes := writes fs2 ++ [(index_path, index_page today products)] |}.
Proof.
  unfold build_site, bind, makedirs, path_exists, write_file, ret.
  change (path_join docs_dir (lit "styles.css")) with style_path.
  change (path_join docs_dir (lit "index.html")) with index_path.
  unfold write_new.
  destruct (bool_decide (is_Some (files fs !! style_path))); cbn [negb];
    rewrite for_each_pages; cbn [snd app]; now rewrite index_text_page.
Qed.

Lemma adds_nothing ok fs : adds ok fs fs [].
Proof.
  split; auto.
  - now rewrite app_nil_r.
Qed.

Lemma adds_weaken (ok ok' : str * str -> Prop) fs fs' W :
  (forall w, ok w -> ok' w) -> adds ok fs fs' W -> adds ok' fs fs' W.
Proof.
  intros Hok [H1 H2 H3 H4]. split; auto.
  eapply Forall_impl; [exact H2|]. intros w [? ?]. auto.
Qed.

Lemma adds_trans ok fs fs1 fs2 W1 W2 :
  adds ok fs fs1 W1 -> adds ok fs1 fs2 W2 -> adds ok fs fs2 (W1 ++ W2).
Proof.
  intros [A1 A2 A3 A4] [B1 B2 B3 B4]. split.
  - now rewrite B1, A1, app_assoc.
  - apply Forall_app. split; [assumption|].
    eapply Forall_impl; [exact B2|]. intros w [Hw ?]. split; [|assumption].
    destruct (files fs !! w.1) as [v|] eqn:E; [|reflexivity].
    apply A3 in E. congruence.
  - auto.
  - intros p Hp. rewrite B4, A4; [reflexivity| |];
      intros c Hc; apply (Hp c), elem_of_app; auto.
Qed.

Lemma write_new_adds path text fs :
  exists W, adds (fun w => w = (path, text)) fs (write_new path text fs) W.
Proof.
  unfold write_new. destruct (bool_decide _) eqn:E.
  - exists []. apply adds_nothing.
  - apply bool_decide_eq_false in E. rewrite <- eq_None_not_Some in E.
    exists [(path, text)]. split; simpl.
    + reflexivity.
    + repeat constructor. assumption.
    + intros p v Hp. rewrite lookup_insert_ne; [assumption | congruence].
    + intros p Hp. apply lookup_insert_ne. intros ->.
      apply (Hp text). now left.
Qed.

Lemma write_new_present path text fs :
  is_Some (files (write_new path text fs) !! path).
Proof.
  unfold write_new. destruct (bool_decide _) eqn:E.
  - now apply bool_decide_eq_true in E.
  - simpl. rewrite lookup_insert_eq. eauto.
Qed.

Lemma write_new_absent path text fs :
  files fs !! path = None ->
  write_new path text fs =
  {| files := <[path := text]> (files fs);
     writes := writes fs ++ [(path, text)] |}.
Proof.
  intros H. unfold write_new. rewrite bool_decide_eq_false_2; [reflexivity|].
  rewrite H. now apply is_Some_None.
Qed.

Lemma write_new_noop path text fs :
  is_Some (files fs !! path) -> write_new path text fs = fs.
Proof. intros H. unfold write_new. now rewrite bool_decide_eq_true_2. Qed.

Lemma write_pages_app today l1 l2 fs :
  write_pages today (l1 ++ l2) fs = write_pages today l2 (write_pages today l1 fs).
Proof. revert fs; induction l1 as [|p r IH]; intros fs; simpl; auto. Qed.

Lemma write_pages_adds today products fs :
  exists W,
    adds (fun w => exists x, x ∈ products /\ w = (page_path x, page_html today x))
         fs (write_pages today products fs) W.
Proof.
  revert fs; induction products as [|p r IH]; intros fs; simpl.
  - exists []. apply adds_nothing.
  - destruct (write_new_adds (page_path p) (page_html today p) fs) as [W1 H1].
    destruct (IH (write_new (page_path p) (page_html today p) fs)) as [W2 H2].
    exists (W1 ++ W2). eapply adds_trans.
    + eapply adds_weaken; [|exact H1]. intros w ->. exists p. split; [now left | reflexivity].
    + eapply adds_weaken; [|exact H2]. intros w (x & Hx & ->).
      exists x. split; [now right | reflexivity].
Qed.

(** After the loop every product has its page file. *)
Lemma write_pages_cover today products fs x :
  x ∈ products -> is_Some (files (write_pages today products fs) !! page_path x).
Proof.
  revert fs; induction products as [|p r IH]; intros fs Hx; simpl.
  - inversion Hx.
  - apply elem_of_cons in Hx as [->|Hx]; [|now apply IH].
    destruct (write_pages_adds today r
                (write_new (page_path p) (page_html today p) fs)) as [W H].
    destruct (write_new_present (page_path p) (page_html today p) fs) as [v Hv].
    exists v. now apply (adds_keep _ _ _ _ H).
Qed.

(** When every product has its page file, the loop writes nothing. *)
Lemma write_pages_noop today products fs :
  (forall x, x ∈ products -> is_Some (files fs !! page_path x)) ->
  write_pages today products fs = fs.
Proof.
  induction products as [|p r IH]; intros H; simpl; [reflexivity|].
  rewrite write_new_noop by (apply H; now left).
  apply IH. intros x Hx. apply H. now right.
Qed.


(** C5. Every run ends by writing [docs/index.html], whatever was
    there: the file then holds the head of the index, one entry for each
    product of the input, in input order, and the foot. The entry of a
    product links to [<slug>.html], is labelled [<product> Review] and is
    followed by the date of the run, whether or not the page of the
    product was written in this run. *)
Theorem build_site_writes_index products today fs :
  let fs' := snd (build_site products today fs) in
  let index :=
    index_head ++ concat (map (index_line today) products) ++ index_foot in
  files fs' !! index_path = Some index
  /\ last (writes fs') = Some (index_path, index).
Proof.
  cbv zeta. rewrite build_site_run. cbn [files writes]. split.
  - apply lookup_insert_eq.
  - apply last_snoc.
Qed.

(** C6. A second run with the same products on the same date changes
    no file: every page keeps the text it had after the first run, and
    the one write of the second run puts into [docs/index.html] the text
    the first run had put there. *)
Theorem build_site_twice products today fs :
  let fs1 := snd (build_site products today fs) in
  let fs2 := snd (build_site products today fs1) in
  files fs2 = files fs1
  /\ writes fs2 = writes fs1 ++ [(index_path, index_page today products)]
  /\ files fs1 !! index_path = Some (index_page today products).
Proof.
  cbv zeta. rewrite (build_site_run products today fs).
  set (fs0 := write_pages today products (write_new style_path stylesheet fs)).
  set (fs1 := {| files := <[index_path := index_page today products]> (files fs0);
                 writes := writes fs0 ++ [(index_path, index_page today products)] |}).
  assert (Hkeep : forall p, is_Some (files fs0 !! p) -> is_Some (files fs1 !! p)).
  { intros p [v Hv]. unfold fs1; cbn [files].
    destruct (decide (index_path = p)) as [<-|Hne].
    - rewrite lookup_insert_eq. eauto.
    - rewrite lookup_insert_ne by assumption. eauto. }
  assert (Hstyle : write_new style_path stylesheet fs1 = fs1).
  { apply write_new_noop, Hkeep.
    destruct (write_pages_adds today products (write_new style_path stylesheet fs))
      as [W H].
    destruct (write_new_present style_path stylesheet fs) as [v Hv].
    exists v. now apply (adds_keep _ _ _ _ H). }
  assert (Hpages : write_pages today products fs1 = fs1).
  { apply write_pages_noop. intros x Hx. now apply Hkeep, write_pages_cover. }
  rewrite (build_site_run products today fs1). cbv zeta.
  rewrite Hstyle, Hpages. cbn [files writes]. split; [|split].
  - unfold fs1; cbn [files]. apply insert_insert_eq.
  - reflexivity.
  - unfold fs1; cbn [files]. apply lookup_insert_eq.
Qed.

(** C1, as the code has it. Apart from the index, which closes the run,
    a run writes only where no file was: the stylesheet to
    [docs/styles.css] and the page of a product to [docs/<slug>.html].
    Every file that existed before the run, other than
    [docs/index.html], has its text unchanged after it. *)
Theorem build_site_keeps_files products today fs :
  let fs' := snd (build_site products today fs) in
  (exists W,
     writes fs' = writes fs ++ W ++ [(index_path, index_page today products)]
     /\ Forall (fun w =>
          files fs !! w.1 = None
          /\ (w = (style_path, stylesheet)
              \/ exists x, x ∈ products /\ w = (page_path x, page_html today x)))
        W)
  /\ (forall p v, p <> index_path ->
       files fs !! p = Some v -> files fs' !! p = Some v).
Proof.
  cbv zeta. rewrite build_site_run. cbv zeta. cbn [files writes].
  destruct (write_new_adds style_path stylesheet fs) as [W0 H0].
  destruct (write_pages_adds today products (write_new style_path stylesheet fs))
    as [W1 H1].
  set (ok := fun w : str * str =>
         w = (style_path, stylesheet)
         \/ exists x, x ∈ products /\ w = (page_path x, page_html today x)).
  assert (H : adds ok fs
                (write_pages today products (write_new style_path stylesheet fs))
                (W0 ++ W1)).
  { eapply adds_trans.
    - eapply adds_weaken; [|exact H0]. intros w Hw. left. exact Hw.
    - eapply adds_weaken; [|exact H1]. intros w Hw. right. exact Hw. }
  split.
  - exists (W0 ++ W1). split.
    + rewrite (adds_log _ _ _ _ H). now rewrite <- app_assoc.
    + exact (adds_new _ _ _ _ H).
  - intros p v Hp Hv. rewrite lookup_insert_ne by congruence.
    now apply (adds_keep _ _ _ _ H).
Qed.

Lemma index_line_injective today a b :
  slugify a = slugify b -> index_line today a = index_line today b -> a = b.
Proof.
  unfold index_line. intros -> H.
  do 6 apply app_inv_head in H. now apply app_inv_tail in H.
Qed.

(** C10. Let [a] and [b] be two different products of the input with the
    same slug, [a] the first product with that slug and [b] a later one,
    and let no file exist at [docs/<slug>.html]. Then the run writes
    that file once, with the page of [a], and no other write before the
    index goes to it; the path of the page of [b] is the same path; and
    the index has one entry for [a] and another for [b], both linking to
    [<slug>.html]. *)
Theorem build_site_same_slug today fs (l1 l2 l3 : list str) (a b : str) :
  a <> b -> slugify a = slugify b ->
  (forall x, x ∈ l1 -> slugify x <> slugify a) ->
  files fs !! page_path a = None ->
  let products := l1 ++ a :: l2 ++ b :: l3 in
  let fs' := snd (build_site products today fs) in
  let entry product :=
    lit "<li><a href=" ++ dq ++ slugify a ++ lit ".html" ++ dq ++ lit ">"
    ++ product ++ lit " Review</a> - " ++ today ++ lit "</li>" ++ nl in
  (exists W1 W2,
     writes fs' = writes fs ++ W1 ++ [(page_path a, page_html today a)] ++ W2
                  ++ [(index_path, index_page today products)]
     /\ forall c, (page_path a, c) ∉ W1 ++ W2)
  /\ page_path b = page_path a
  /\ index_page today products =
     index_head ++ concat (map (index_line today) l1) ++ entry a
     ++ concat (map (index_line today) l2) ++ entry b
     ++ concat (map (index_line today) l3) ++ index_foot
  /\ entry a <> entry b.
Proof.
  intros Hab Hslug Hfirst Hnone. cbv zeta. split; [|split; [|split]].
  - rewrite build_site_run. cbv zeta. cbn [writes].
    rewrite write_pages_app. cbn [write_pages].
    destruct (write_new_adds style_path stylesheet fs) as [W0 H0].
    set (fs1 := write_new style_path stylesheet fs) in *.
    destruct (write_pages_adds today l1 fs1) as [Wa Ha].
    set (fs2 := write_pages today l1 fs1) in *.
    assert (Hnone2 : files fs2 !! page_path a = None).
    { rewrite (adds_frame _ _ _ _ Ha), (adds_frame _ _ _ _ H0); [assumption| |].
      - intros c Hc. pose proof (adds_new _ _ _ _ H0) as Hn.
        rewrite Forall_forall in Hn. destruct (Hn _ Hc) as [_ E].
        apply (f_equal fst) in E. cbn [fst] in E.
        now apply (style_path_not_page a).
      - intros c Hc. pose proof (adds_new _ _ _ _ Ha) as Hn.
        rewrite Forall_forall in Hn. destruct (Hn _ Hc) as [_ (x & Hx & E)].
        apply (f_equal fst) in E. cbn [fst] in E.
        apply (Hfirst x Hx). symmetry. now apply page_path_slug. }
    rewrite (write_new_absent _ _ _ Hnone2).
    set (fs3 := {| files := _; writes := _ |}).
    destruct (write_pages_adds today (l2 ++ b :: l3) fs3) as [Wb Hb].
    exists (W0 ++ Wa), Wb. split.
    + rewrite (adds_log _ _ _ _ Hb). unfold fs3; cbn [writes].
      rewrite (adds_log _ _ _ _ Ha), (adds_log _ _ _ _ H0).
      now rewrite <- !app_assoc.
    + intros c Hc. apply elem_of_app in Hc as [Hc|Hc].
      * apply elem_of_app in Hc as [Hc|Hc].
        -- pose proof (adds_new _ _ _ _ H0) as Hn.
           rewrite Forall_forall in Hn. destruct (Hn _ Hc) as [_ E].
           apply (f_equal fst) in E. cbn [fst] in E.
           now apply (style_path_not_page a).
        -- pose proof (adds_new _ _ _ _ Ha) as Hn.
           rewrite Forall_forall in Hn. destruct (Hn _ Hc) as [_ (x & Hx & E)].
           apply (f_equal fst) in E. cbn [fst] in E.
           apply (Hfirst x Hx). symmetry. now apply page_path_slug.
      * pose proof (adds_new _ _ _ _ Hb) as Hn.
        rewrite Forall_forall in Hn. destruct (Hn _ Hc) as [Hn' _].
        unfold fs3 in Hn'; cbn [files fst] in Hn'.
        rewrite lookup_insert_eq in Hn'. discriminate.
  - unfold page_path. now rewrite Hslug.
  - unfold index_page. rewrite map_app, concat_app. cbn [map concat].
    rewrite map_app, concat_app. cbn [map concat].
    rewrite <- !app_assoc. unfold index_line at 2 4. rewrite <- Hslug.
    rewrite <- !app_assoc. reflexivity.
  - intros H. apply Hab. apply (index_line_injective today); [assumption|].
    unfold index_line. rewrite <- Hslug. exact H.
Qed.

(** ** The entry point *)

(** C2, as the code has it. When [fetch_best_sellers] raises an
    exception that is an instance of [Exception], [main] catches it and
    calls [build_site] with the three sample products, in their order;
    the exception does not leave [main]. *)
Theorem main_falls_back m e today fs :
  snd (fetch_best_sellers m 3) = Raised e ->
  isinstance_Exception e = true ->
  snd (main_names m) = Returned sample_products
  /\ snd (main m today fs)
     = Returned (snd (build_site sample_products today fs))
  /\ sample_products
     = [lit "Sample Product A"; lit "Sample Product B"; lit "Sample Product C"].
Proof.
  intros Hf He. unfold main, main_names.
  destruct (fetch_best_sellers m 3) as [trace r]. simpl in Hf. subst r.
  rewrite He. repeat split.
Qed.

(** * Further properties *)

(** ** The slugifier *)

Lemma lstrip_app cs a b :
  lstrip cs (a ++ b) =
  match lstrip cs a with [] => lstrip cs b | l => l ++ b end.
Proof.
  induction a as [|c a IH]; [reflexivity|]. simpl.
  destruct (existsb (N.eqb c) cs); [exact IH | reflexivity].
Qed.

Lemma rstrip_app cs a b :
  rstrip cs (a ++ b) =
  match rstrip cs b with [] => rstrip cs a | u => a ++ u end.
Proof.
  unfold rstrip. rewrite rev_app_distr, lstrip_app.
  destruct (lstrip cs (rev b)) as [|x l]; [reflexivity|].
  rewrite rev_app_distr, rev_involutive.
  destruct (rev (x :: l)) eqn:E; [|reflexivity].
  apply (f_equal (@length N)) in E. rewrite length_rev in E. discriminate.
Qed.

Lemma rstrip_az09 g :
  Forall (fun c => is_az09 c = true) g -> rstrip [hyphen] g = g.
Proof.
  induction g as [|c g IH]; intros H; [reflexivity|].
  inversion H as [|? ? Hc Hg]; subst.
  change (c :: g) with ([c] ++ g). rewrite rstrip_app, (IH Hg).
  destruct g; [|reflexivity].
  unfold rstrip. simpl. now rewrite (az09_not_hyphen c Hc).
Qed.

Lemma join_nil sep w ws : join sep (w :: ws) = [] -> w = [].
Proof.
  simpl. destruct ws; [auto|]. intros H. now apply app_eq_nil in H as [? _].
Qed.

Abbreviation inside_runs R :=
  (map snd (filter (fun bg : bool * str => fst bg = true) R)).

Abbreviation uniform_run :=
  (fun bg : bool * str =>
     snd bg <> [] /\ Forall (fun c => is_az09 c = fst bg) (snd bg)).

Lemma inside_runs_nonempty R :
  Forall uniform_run R -> Forall (fun w => w <> []) (inside_runs R).
Proof.
  induction R as [|[b g] R IH]; intros H; [constructor|].
  inversion H as [|? ? [Hg _] HR]; subst. rewrite filter_cons.
  destruct (decide (fst (b, g) = true)); simpl; auto.
Qed.

(** The hyphens at the right end of the collapsed runs: what is left are
    the runs inside the class, joined by hyphens, behind one hyphen when
    the first run is outside the class. *)
Lemma rstrip_collapsed R :
  alternating R -> Forall uniform_run R ->
  rstrip [hyphen] (concat (map collapse_run R)) =
  match R with
  | (false, _) :: _ =>
      match join [hyphen] (inside_runs R) with
      | [] => []
      | j => hyphen :: j
      end
  | _ => join [hyphen] (inside_runs R)
  end.
Proof.
  induction R as [|[b g] R IH]; intros Halt Hun; [reflexivity|].
  inversion Hun as [|? ? [Hg Hc] HR]; subst. simpl in Hg, Hc.
  assert (Halt' : alternating R) by (destruct R; [exact I | apply Halt]).
  specialize (IH Halt' HR).
  cbn [map concat]. rewrite filter_cons. destruct b.
  - change (collapse_run (true, g)) with g.
    rewrite decide_True by reflexivity. cbn [map snd].
    rewrite rstrip_app, IH. destruct R as [|[b' g'] R'].
    + simpl. apply rstrip_az09, Hc.
    + destruct Halt as [Hne _]. simpl in Hne. destruct b'; [congruence|].
      pose proof (inside_runs_nonempty _ HR) as Hw.
      destruct (inside_runs ((false, g') :: R')) as [|w ws] eqn:E.
      * simpl. apply rstrip_az09, Hc.
      * inversion Hw as [|? ? Hw1 _]; subst.
        change (join [hyphen] (g :: w :: ws))
          with (g ++ [hyphen] ++ join [hyphen] (w :: ws)).
        destruct (join [hyphen] (w :: ws)) as [|j js] eqn:Ej.
        -- now apply join_nil in Ej.
        -- reflexivity.
  - change (collapse_run (false, g)) with [hyphen].
    rewrite decide_False by discriminate.
    rewrite rstrip_app, IH. destruct R as [|[b' g'] R'].
    + reflexivity.
    + destruct Halt as [Hne _]. simpl in Hne. destruct b'; [|congruence].
      now destruct (join [hyphen] (inside_runs ((true, g') :: R'))).
Qed.

Lemma collapsed_no_leading R :
  Forall uniform_run R ->
  match R with (false, _) :: _ => False | _ => True end ->
  no_leading_hyphen (concat (map collapse_run R)) = true.
Proof.
  destruct R as [|[[] g] R]; intros H Hb; try reflexivity; [|contradiction].
  inversion H as [|? ? [Hg Hc] _]; subst. simpl in *.
  destruct g as [|c g]; [congruence|]. inversion Hc; subst.
  unfold collapse_run. simpl. now rewrite az09_not_hyphen.
Qed.

Lemma slugify_words text :
  slugify text = join [hyphen] (words is_az09 (str_lower text)).
Proof.
  unfold slugify, re_sub_not_az09_plus, words, strip.
  rewrite re_sub_runs.
  pose proof (runs_maximal is_az09 (str_lower text)) as Halt.
  pose proof (runs_uniform is_az09 (str_lower text)) as Hun.
  destruct (runs is_az09 (str_lower text)) as [|[b g] R] eqn:E.
  - reflexivity.
  - destruct b.
    + rewrite lstrip_id by (now apply collapsed_no_leading).
      now rewrite rstrip_collapsed.
    + inversion Hun as [|? ? _ HR]; subst.
      assert (Halt' : alternating R) by (destruct R; [exact I | apply Halt]).
      assert (Hstart : match R with (false, _) :: _ => False | _ => True end).
      { destruct R as [|[[] ?] ?]; auto. destruct Halt as [Hne _]. now apply Hne. }
      cbn [map concat]. unfold collapse_run at 1. cbn [fst snd app].
      cbn [lstrip existsb]. rewrite N.eqb_refl. cbn [orb].
      rewrite lstrip_id by (now apply collapsed_no_leading).
      rewrite rstrip_collapsed by assumption. rewrite filter_cons.
      destruct (decide (fst (false, g) = true)) as [Hd|_]; [discriminate Hd|].
      destruct R as [|[[] ?] ?]; [reflexivity | reflexivity | contradiction].
Qed.

Lemma words_inside s :
  Forall (fun w => w <> [] /\ Forall (fun c => is_az09 c = true) w)
         (words is_az09 s).
Proof.
  unfold words. pose proof (runs_uniform is_az09 s) as H.
  induction (runs is_az09 s) as [|[b g] R IH]; [constructor|].
  inversion H as [|? ? [Hg Hc] HR]; subst. rewrite filter_cons.
  destruct (decide (fst (b, g) = true)) as [Hb|Hb]; [|now apply IH].
  cbn [map snd]. constructor; [|now apply IH]. simpl in *. now subst b.
Qed.

(** X1. The slug of a text is made of the words of the lower-cased
    text joined by single hyphens. The words are the maximal runs of
    characters of [a-z0-9]: none is empty, each holds such characters
    only, and together they hold all such characters of the text, in
    order. *)
Theorem slugify_joins_words text :
  slugify text = join [hyphen] (words is_az09 (str_lower text))
  /\ Forall (fun w => w <> [] /\ Forall (fun c => is_az09 c = true) w)
       (words is_az09 (str_lower text))
  /\ List.filter is_az09 (concat (words is_az09 (str_lower text)))
     = List.filter is_az09 (str_lower text).
Proof.
  split; [apply slugify_words|]. split; [apply words_inside|].
  unfold words. rewrite <- (runs_concat is_az09 (str_lower text)) at 2.
  pose proof (runs_uniform is_az09 (str_lower text)) as H.
  induction (runs is_az09 (str_lower text)) as [|[b g] R IH]; [reflexivity|].
  inversion H as [|? ? [_ Hc] HR]; subst. simpl in Hc.
  rewrite filter_cons. cbn [map snd concat].
  rewrite List.filter_app, <- (IH HR).
  destruct (decide (fst (b, g) = true)) as [Hb|Hb]; simpl in Hb.
  - cbn [map snd concat]. now rewrite List.filter_app.
  - destruct b; [congruence|].
    assert (Hg : List.filter is_az09 g = []).
    { clear -Hc. induction Hc as [|c g Hc _ IH]; [reflexivity|].
      simpl. now rewrite Hc. }
    now rewrite Hg.
Qed.

Lemma split_plain sep w : sep ∉ w -> split sep w = [w].
Proof.
  induction w as [|c w IH]; intros H; [reflexivity|]. simpl.
  apply not_elem_of_cons in H as [Hc Hw].
  rewrite (proj2 (N.eqb_neq c sep)) by congruence. now rewrite (IH Hw).
Qed.

Lemma split_app_sep sep w rest :
  sep ∉ w -> split sep (w ++ sep :: rest) = w :: split sep rest.
Proof.
  induction w as [|c w IH]; intros H; simpl.
  - now rewrite N.eqb_refl.
  - apply not_elem_of_cons in H as [Hc Hw].
    rewrite (proj2 (N.eqb_neq c sep)) by congruence. now rewrite (IH Hw).
Qed.

Lemma split_join sep ws :
  ws <> [] -> Forall (fun w => sep ∉ w) ws -> split sep (join [sep] ws) = ws.
Proof.
  induction ws as [|w ws IH]; intros Hne H; [congruence|].
  inversion H as [|? ? Hw Hws]; subst. destruct ws as [|w' ws'].
  - now apply split_plain.
  - change (join [sep] (w :: w' :: ws'))
      with (w ++ sep :: join [sep] (w' :: ws')).
    rewrite split_app_sep by assumption. f_equal. now apply IH.
Qed.

Lemma words_plain s :
  Forall (fun w => w <> [] /\ hyphen ∉ w) (words is_az09 s).
Proof.
  unfold words. pose proof (runs_uniform is_az09 s) as H.
  induction (runs is_az09 s) as [|[b g] R IH]; [constructor|].
  inversion H as [|? ? [Hg Hc] HR]; subst. rewrite filter_cons.
  destruct (decide (fst (b, g) = true)) as [Hb|Hb]; [|now apply IH].
  cbn [map snd]. constructor; [|now apply IH]. simpl in *. subst b.
  split; [assumption|]. intros Hin. rewrite Forall_forall in Hc.
  now specialize (Hc _ Hin).
Qed.

Lemma words_of_slug text :
  words is_az09 (str_lower text) =
  match slugify text with
  | [] => []
  | _ => split hyphen (slugify text)
  end.
Proof.
  rewrite slugify_words. pose proof (words_plain (str_lower text)) as H.
  destruct (words is_az09 (str_lower text)) as [|w ws] eqn:E; [reflexivity|].
  assert (Hsplit : split hyphen (join [hyphen] (w :: ws)) = w :: ws).
  { apply split_join; [discriminate|].
    eapply Forall_impl; [exact H|]. now intros ? [_ ?]. }
  destruct (join [hyphen] (w :: ws)) eqn:Ej; [exfalso | now symmetry].
  apply join_nil in Ej. inversion H as [|? ? [Hw _] _]; subst. contradiction.
Qed.

(** X2. Two names have the same slug, and with it the same page file,
    exactly when their lower-cased texts have the same words; the words
    can be read off the slug by splitting it at the hyphens. *)
Theorem same_slug_iff_same_words a b :
  (slugify a = slugify b
   <-> words is_az09 (str_lower a) = words is_az09 (str_lower b))
  /\ (page_path a = page_path b <-> slugify a = slugify b)
  /\ words is_az09 (str_lower a)
     = match slugify a with [] => [] | _ => split hyphen (slugify a) end.
Proof.
  split; [|split].
  - split.
    + intros H. rewrite !words_of_slug. now rewrite H.
    + intros H. rewrite !slugify_words. now rewrite H.
  - split; [apply page_path_slug|]. intros H. unfold page_path. now rewrite H.
  - apply words_of_slug.
Qed.

Lemma lower_from_ascii before s :
  Forall (fun c => c < 128) s -> lower_from before s = map ascii_lower s.
Proof.
  intros H. revert before.
  induction H as [|c s Hc _ IH]; intros before; [reflexivity|].
  simpl. unfold lower_at. rewrite (proj2 (N.ltb_lt _ _) Hc). simpl.
  now rewrite IH.
Qed.

(** X3. On a text of ASCII characters [str_lower] maps the letters
    [A]-[Z] to [a]-[z] and keeps the rest, so two ASCII names that
    differ in the case of letters only have the same slug and share one
    page file. *)
Theorem slugify_ignores_case a b :
  Forall (fun c => c < 128) a -> Forall (fun c => c < 128) b ->
  map ascii_lower a = map ascii_lower b ->
  str_lower a = map ascii_lower a
  /\ slugify a = slugify b
  /\ page_path a = page_path b.
Proof.
  intros Ha Hb H.
  assert (Hl : str_lower a = str_lower b).
  { unfold str_lower. now rewrite !lower_from_ascii, H. }
  split; [now apply lower_from_ascii|].
  assert (Hs : slugify a = slugify b) by (unfold slugify; now rewrite Hl).
  split; [exact Hs|]. unfold page_path. now rewrite Hs.
Qed.

Lemma filter_lstrip s :
  List.filter is_az09 (lstrip [hyphen] s) = List.filter is_az09 s.
Proof.
  induction s as [|c s IH]; [reflexivity|]. simpl. rewrite orb_false_r.
  destruct (c =? hyphen) eqn:E; [|reflexivity].
  apply N.eqb_eq in E. subst c. exact IH.
Qed.

Lemma filter_rev (f : N -> bool) s :
  List.filter f (rev s) = rev (List.filter f s).
Proof.
  induction s as [|c s IH]; [reflexivity|]. simpl.
  rewrite List.filter_app, IH. simpl. destruct (f c); simpl.
  - reflexivity.
  - now rewrite app_nil_r.
Qed.

Lemma filter_sub_from b s :
  List.filter is_az09 (sub_from b s) = List.filter is_az09 s.
Proof.
  revert b; induction s as [|c s IH]; intros b; [reflexivity|]. simpl.
  destruct (is_az09 c) eqn:E; simpl.
  - now rewrite E, IH.
  - destruct b; simpl; apply IH.
Qed.

(** X4. [slugify] keeps the characters of [a-z0-9] of the lower-cased
    text, all of them and in their order; whatever else the slug holds
    is a hyphen. *)
Theorem slugify_keeps_alphanumerics text :
  List.filter is_az09 (slugify text) = List.filter is_az09 (str_lower text)
  /\ Forall (fun c => is_az09 c = true \/ c = hyphen) (slugify text).
Proof.
  split.
  - unfold slugify, re_sub_not_az09_plus, strip, rstrip.
    now rewrite filter_rev, filter_lstrip, filter_rev, rev_involutive,
      filter_lstrip, filter_sub_from.
  - pose proof (slugify_shape text) as H. unfold slug_shape in H.
    rewrite !andb_true_iff in H. destruct H as [[[H _] _] _].
    rewrite forallb_forall in H. apply Forall_forall. intros c Hc.
    apply list_elem_of_In in Hc. specialize (H c Hc).
    destruct (slug_char_cases c H) as [?|[_ ?]]; auto.
Qed.

(** X5. The slug is empty exactly when the lower-cased text has no
    character of [a-z0-9]: a name of punctuation only, or written in
    another script. *)
Theorem slugify_empty_iff text :
  slugify text = [] <-> List.filter is_az09 (str_lower text) = [].
Proof.
  split.
  - intros H. rewrite <- filter_sub_from with (b := false).
    unfold slugify, re_sub_not_az09_plus, strip, rstrip in H.
    apply (f_equal (List.filter is_az09)) in H.
    now rewrite filter_rev, filter_lstrip, filter_rev, rev_involutive,
      filter_lstrip in H.
  - intros H. pose proof (slugify_shape text) as Hs.
    assert (Hf : List.filter is_az09 (slugify text) = []).
    { unfold slugify, re_sub_not_az09_plus, strip, rstrip.
      now rewrite filter_rev, filter_lstrip, filter_rev, rev_involutive,
        filter_lstrip, filter_sub_from. }
    unfold slug_shape in Hs. rewrite !andb_true_iff in Hs.
    destruct Hs as [[[Hc Hl] _] _].
    destruct (slugify text) as [|c r]; [reflexivity|]. exfalso.
    simpl in Hc, Hl, Hf. apply andb_true_iff in Hc as [Hc _].
    destruct (is_az09 c) eqn:E; [discriminate Hf|].
    unfold is_slug_char in Hc. rewrite E in Hc. simpl in Hc.
    now rewrite Hc in Hl.
Qed.

(** ** The fetcher and the entry point *)

Lemma fetch_serves m (doc : soup) max_items :
  serves m doc ->
  fetch_best_sellers m max_items
  = ([HttpGet url headers 10],
     Returned (scan_selectors max_items doc selectors [])).
Proof.
  intros (rq & bs & resp & Hrq & Hbs & Hget & Hst & Hdoc).
  unfold fetch_best_sellers. now rewrite Hrq, Hbs, Hget, Hst, Hdoc.
Qed.

Lemma quota_closed n names : (n <= 0)%Z -> quota_filled n names = true.
Proof. intros Hn. unfold quota_filled. apply Z.leb_le. lia. Qed.

(** X6. When the page is fetched and parsed and one item or more is
    asked for, [fetch_best_sellers] issues one request and returns at
    most [max_items] names, distinct and non-empty: the texts that the
    three selectors find, in the order of the selectors and of the page,
    each at its first appearance, cut at [max_items]. *)
Theorem fetch_returns_first_names m (doc : soup) max_items :
  serves m doc -> (1 <= max_items)%Z ->
  fetch_best_sellers m max_items
  = ([HttpGet url headers 10], Returned (fetch_contract max_items doc))
  /\ (Z.of_nat (length (fetch_contract max_items doc)) <= max_items)%Z
  /\ NoDup (fetch_contract max_items doc)
  /\ Forall (fun text => text <> []) (fetch_contract max_items doc).
Proof.
  intros Hs Hn. rewrite (fetch_serves _ _ _ Hs).
  destruct (fetch_meets_contract_positive max_items doc Hn) as (He & Hl & Hd & Hf).
  cbv zeta in He, Hl, Hd, Hf. rewrite He in *. auto.
Qed.

(** X7. When the page is fetched and parsed and no item, or a negative
    number of items, is asked for, [fetch_best_sellers] looks at the
    first element that the first selector finds and at nothing else: it
    returns the text of that element if it is not empty, and no name
    otherwise. *)
Theorem fetch_quota_not_positive m (doc : soup) max_items :
  serves m doc -> (max_items <= 0)%Z ->
  fetch_best_sellers m max_items
  = ([HttpGet url headers 10],
     Returned
       match doc (lit "div.p13n-sc-uncoverable-faceout a.a-link-normal div.p13n-sc-truncate") with
       | [] => []
       | text :: _ => if bool_decide (text = []) then [] else [text]
       end).
Proof.
  intros Hs Hn. rewrite (fetch_serves _ _ _ Hs). do 2 f_equal.
  unfold selectors. cbn [scan_selectors].
  destruct (doc _) as [|text rest]; cbn [scan_elements].
  - now rewrite quota_closed.
  - rewrite (bool_decide_eq_false_2 (text ∈ [])) by apply not_elem_of_nil.
    rewrite andb_true_r, !quota_closed by assumption.
    now destruct (bool_decide (text = [])).
Qed.

Lemma filter_all_empty (l : list str) :
  Forall (fun t => t = []) l -> filter (fun t : str => t <> []) l = [].
Proof.
  induction 1 as [|t l Ht _ IH]; [reflexivity|].
  rewrite filter_cons, IH. now destruct (decide (t <> [])).
Qed.

(** X8. When the page is fetched and parsed but the selectors find no
    text in it, [fetch_best_sellers] returns the empty list without an
    error, and [main] does not fall back to the sample products: it
    builds a site whose index has no entry. *)
Theorem main_empty_page m (doc : soup) today fs :
  serves m doc ->
  (forall selector, selector ∈ selectors ->
     Forall (fun text => text = []) (doc selector)) ->
  snd (fetch_best_sellers m 3) = Returned []
  /\ snd (main m today fs) = Returned (snd (build_site [] today fs))
  /\ files (snd (build_site [] today fs)) !! index_path
     = Some (index_head ++ index_foot).
Proof.
  intros Hs Hempty.
  assert (Hf : fetch_best_sellers m 3 = ([HttpGet url headers 10], Returned [])).
  { rewrite (fetch_serves _ _ _ Hs). do 2 f_equal.
    rewrite scan_selectors_spec by (simpl; lia).
    assert (Hnone : filter (fun t : str => t <> []) (concat (map doc selectors)) = []).
    { apply filter_all_empty, Forall_concat, Forall_forall.
      intros l Hl. apply list_elem_of_fmap in Hl as (sel & -> & Hsel).
      now apply Hempty. }
    rewrite Hnone. reflexivity. }
  split; [now rewrite Hf|]. split.
  - unfold main, main_names. now rewrite Hf.
  - rewrite build_site_run. cbv zeta. cbn [files].
    rewrite lookup_insert_eq. unfold index_page. cbn [map concat].
    reflexivity.
Qed.


(** X10. Without the two packages [main] issues no request and builds
    the site of the sample products. *)
Theorem main_without_modules m today fs :
  requests m = None \/ BeautifulSoup m = None ->
  main m today fs
  = ([], Returned (snd (build_site sample_products today fs))).
Proof.
  intros H. unfold main, main_names.
  assert (Hf : exists msg,
            fetch_best_sellers m 3 = ([], Raised (ImportError msg))).
  { unfold fetch_best_sellers. eexists.
    destruct (requests m), (BeautifulSoup m); try reflexivity.
    destruct H; discriminate. }
  destruct Hf as [msg ->]. reflexivity.
Qed.

(** X11. When the request is answered with a status from 400 to 599,
    [fetch_best_sellers] raises [HTTPError] after that one request,
    whatever the body is, and [main] builds the site of the sample
    products. *)
Theorem http_error_falls_back m rq bs resp max_items today fs :
  requests m = Some rq -> BeautifulSoup m = Some bs ->
  requests_get rq url headers 10 = Returned resp ->
  (400 <= status_code resp < 600)%Z ->
  fetch_best_sellers m max_items
  = ([HttpGet url headers 10], Raised (HTTPError (status_code resp)))
  /\ snd (main m today fs)
     = Returned (snd (build_site sample_products today fs)).
Proof.
  intros Hrq Hbs Hget Hst.
  assert (Hf : forall n, fetch_best_sellers m n
             = ([HttpGet url headers 10], Raised (HTTPError (status_code resp)))).
  { intros n. unfold fetch_best_sellers, raise_for_status.
    rewrite Hrq, Hbs, Hget.
    now rewrite (proj2 (Z.leb_le _ _) (proj1 Hst)), (proj2 (Z.ltb_lt _ _) (proj2 Hst)). }
  split; [apply Hf|]. unfold main, main_names. now rewrite Hf.
Qed.

(** ** The page renderer *)

(** X12. Joining the pieces of a split with the separator gives the
    string back: [sep.join(s.split(sep)) == s]. *)
Theorem join_split sep s : join [sep] (split sep s) = s.
Proof.
  induction s as [|c r IH]; simpl; [reflexivity|].
  pose proof (split_nonempty sep r) as Hne.
  destruct (c =? sep) eqn:E; simpl.
  - apply N.eqb_eq in E. subst c.
    destruct (split sep r) as [|w ws]; [contradiction|]. now rewrite <- IH.
  - destruct (split sep r) as [|w ws]; [contradiction|]. rewrite <- IH.
    now destruct ws.
Qed.

(** X13. In the page that [build_site] renders for a product, the
    address of the link holds the slug with a plus sign for each hyphen:
    characters of [a-z0-9] and plus signs only, as many as the slug has
    characters, whatever the name of the product is. *)
Theorem page_link_is_plain today product :
  let keywords :=
    map (fun c => if c =? hyphen then plus_sign else c) (slugify product) in
  occurs_in
    (lit "<a href=" ++ dq ++ lit "https://www.amazon.com/s?k=" ++ keywords
     ++ lit "&tag=YOUR_AFFILIATE_ID" ++ dq ++ lit ">Buy on Amazon</a>")
    (page_html today product)
  /\ Forall (fun c => is_az09 c = true \/ c = plus_sign) keywords
  /\ length keywords = length (slugify product).
Proof.
  cbv zeta. split; [|split].
  - unfold page_html. rewrite <- join_split_plus.
    find_pieces 62%nat 7%nat (lit "  <p>") (lit "</p>").
  - pose proof (slugify_shape product) as H. unfold slug_shape in H.
    rewrite !andb_true_iff in H. destruct H as [[[H _] _] _].
    rewrite forallb_forall in H. apply Forall_forall. intros c Hc.
    apply list_elem_of_fmap in Hc as (d & -> & Hd).
    apply list_elem_of_In in Hd. specialize (H d Hd).
    destruct (slug_char_cases d H) as [Hz|[_ ->]].
    + rewrite (az09_not_hyphen d Hz). now left.
    + right. reflexivity.
  - apply length_map.
Qed.

(** ** The site builder *)

Lemma slug_no_slash product : slash ∉ slugify product ++ lit ".html".
Proof.
  pose proof (slugify_shape product) as H. unfold slug_shape in H.
  rewrite !andb_true_iff in H. destruct H as [[[H _] _] _].
  rewrite forallb_forall in H. intros Hin.
  apply elem_of_app in Hin as [Hin|Hin].
  - apply list_elem_of_In in Hin. specialize (H _ Hin). discriminate H.
  - apply list_elem_of_In in Hin. simpl in Hin.
    repeat (destruct Hin as [Hin|Hin]; [discriminate Hin|]). exact Hin.
Qed.

(** X14. A run writes inside [docs] and nowhere else: the path of every
    write is [docs/] followed by a file name without a slash, whatever
    the names of the products are. *)
Theorem build_site_writes_inside_docs products today fs :
  exists W,
    writes (snd (build_site products today fs)) = writes fs ++ W
    /\ Forall (fun w => exists name, w.1 = lit "docs/" ++ name /\ slash ∉ name) W.
Proof.
  rewrite build_site_run. cbv zeta. cbn [writes].
  destruct (write_new_adds style_path stylesheet fs) as [W0 H0].
  destruct (write_pages_adds today products (write_new style_path stylesheet fs))
    as [W1 H1].
  exists (W0 ++ W1 ++ [(index_path, index_page today products)]). split.
  - rewrite (adds_log _ _ _ _ H1), (adds_log _ _ _ _ H0).
    now rewrite <- !app_assoc.
  - rewrite !Forall_app. repeat split.
    + eapply Forall_impl; [exact (adds_new _ _ _ _ H0)|].
      intros w [_ ->]. exists (lit "styles.css"). split; [reflexivity|].
      intros Hin. apply list_elem_of_In in Hin. simpl in Hin.
      repeat (destruct Hin as [Hin|Hin]; [discriminate Hin|]). exact Hin.
    + eapply Forall_impl; [exact (adds_new _ _ _ _ H1)|].
      intros w [_ (x & _ & ->)]. exists (slugify x ++ lit ".html").
      split; [reflexivity | apply slug_no_slash].
    + repeat constructor. exists (lit "index.html"). split; [reflexivity|].
      intros Hin. apply list_elem_of_In in Hin. simpl in Hin.
      repeat (destruct Hin as [Hin|Hin]; [discriminate Hin|]). exact Hin.
Qed.

Lemma insert_keeps_present (m : gmap str str) k v p :
  is_Some (m !! p) -> is_Some (<[k := v]> m !! p).
Proof.
  intros [u Hu]. destruct (decide (k = p)) as [<-|Hne].
  - rewrite lookup_insert_eq. eauto.
  - rewrite lookup_insert_ne by assumption. eauto.
Qed.

(** X15. A run deletes nothing and leaves a whole site: every file that
    existed still exists, and the stylesheet, the index and the page
    file of every product of the input exist. *)
Theorem build_site_leaves_site products today fs :
  let fs' := snd (build_site products today fs) in
  (forall p, is_Some (files fs !! p) -> is_Some (files fs' !! p))
  /\ is_Some (files fs' !! style_path)
  /\ is_Some (files fs' !! index_path)
  /\ (forall x, x ∈ products -> is_Some (files fs' !! page_path x)).
Proof.
  cbv zeta. rewrite build_site_run. cbv zeta. cbn [files].
  destruct (write_new_adds style_path stylesheet fs) as [W0 H0].
  destruct (write_pages_adds today products (write_new style_path stylesheet fs))
    as [W1 H1].
  repeat split.
  - intros p [v Hv]. apply insert_keeps_present. exists v.
    apply (adds_keep _ _ _ _ H1), (adds_keep _ _ _ _ H0), Hv.
  - apply insert_keeps_present.
    destruct (write_new_present style_path stylesheet fs) as [v Hv].
    exists v. now apply (adds_keep _ _ _ _ H1).
  - rewrite lookup_insert_eq. eauto.
  - intros x Hx. apply insert_keeps_present. now apply write_pages_cover.
Qed.

Lemma write_pages_first today l1 x l2 fs :
  (forall y, y ∈ l1 -> slugify y <> slugify x) ->
  files fs !! page_path x = None ->
  files (write_pages today (l1 ++ x :: l2) fs) !! page_path x
  = Some (page_html today x).
Proof.
  intros Hfirst Hnone. rewrite write_pages_app. cbn [write_pages].
  destruct (write_pages_adds today l1 fs) as [Wa Ha].
  assert (Hnone2 : files (write_pages today l1 fs) !! page_path x = None).
  { rewrite (adds_frame _ _ _ _ Ha); [assumption|].
    intros c Hc. pose proof (adds_new _ _ _ _ Ha) as Hn.
    rewrite Forall_forall in Hn. destruct (Hn _ Hc) as [_ (y & Hy & E)].
    apply (f_equal fst) in E. cbn [fst] in E.
    apply (Hfirst y Hy). symmetry. now apply page_path_slug. }
  rewrite (write_new_absent _ _ _ Hnone2).
  set (fs3 := {| files := _; writes := _ |}).
  destruct (write_pages_adds today l2 fs3) as [Wb Hb].
  apply (adds_keep _ _ _ _ Hb). unfold fs3; cbn [files].
  apply lookup_insert_eq.
Qed.

(** X16. The first product of the input that has a given slug, other
    than [index], and finds no file at [docs/<slug>.html] gets its page:
    after the run the file holds the page rendered for that product,
    with the title [<product> Review] and the date of the run. *)
Theorem build_site_fresh_page today fs (l1 l2 : list str) (x : str) :
  (forall y, y ∈ l1 -> slugify y <> slugify x) ->
  files fs !! page_path x = None ->
  slugify x <> lit "index" ->
  files (snd (build_site (l1 ++ x :: l2) today fs)) !! page_path x
  = Some (generate_post_html (x ++ lit " Review") today x (slugify x)).
Proof.
  intros Hfirst Hnone Hindex. rewrite build_site_run. cbv zeta. cbn [files].
  rewrite lookup_insert_ne.
  - apply write_pages_first; [assumption|].
    destruct (write_new_adds style_path stylesheet fs) as [W0 H0].
    rewrite (adds_frame _ _ _ _ H0); [assumption|].
    intros c Hc. pose proof (adds_new _ _ _ _ H0) as Hn.
    rewrite Forall_forall in Hn. destruct (Hn _ Hc) as [_ E].
    apply (f_equal fst) in E. cbn [fst] in E.
    now apply (style_path_not_page x).
  - intros E. apply Hindex.
    change index_path with (lit "docs/" ++ lit "index" ++ lit ".html") in E.
    unfold page_path in E. apply app_inv_head in E.
    apply app_inv_tail in E. now symmetry.
Qed.

(** X17. A run that finds no stylesheet leaves [docs/styles.css] with
    the fixed text of the script. *)
Theorem build_site_fresh_stylesheet products today fs :
  files fs !! style_path = None ->
  files (snd (build_site products today fs)) !! style_path = Some stylesheet.
Proof.
  intros Hnone. rewrite build_site_run. cbv zeta. cbn [files].
  rewrite lookup_insert_ne by discriminate.
  destruct (write_pages_adds today products (write_new style_path stylesheet fs))
    as [W1 H1].
  apply (adds_keep _ _ _ _ H1). rewrite (write_new_absent _ _ _ Hnone).
  cbn [files]. apply lookup_insert_eq.
Qed.

(** X18. A product whose slug is [index] never has its page after a
    run: its page file is [docs/index.html], and that file holds the
    index, which is not the page of the product. *)
Theorem build_site_index_slug products today fs (x : str) :
  slugify x = lit "index" ->
  page_path x = index_path
  /\ files (snd (build_site products today fs)) !! page_path x
     = Some (index_page today products)
  /\ index_page today products <> page_html today x.
Proof.
  intros Hx.
  assert (Hp : page_path x = index_path) by (unfold page_path; now rewrite Hx).
  split; [exact Hp|]. split.
  - rewrite Hp, build_site_run. cbv zeta. cbn [files]. apply lookup_insert_eq.
  - intros E. apply (f_equal (take 32)) in E.
    unfold index_page, page_html, generate_post_html in E.
    vm_compute in E. discriminate E.
Qed.

(** X19. A second run on another date with the same products writes the
    index and nothing else: every other file is as the first run left
    it, so a page keeps the date of the run that wrote it, while every
    entry of the index carries the date of the second run. *)
Theorem build_site_again_later products date1 date2 fs :
  let fs1 := snd (build_site products date1 fs) in
  let fs2 := snd (build_site products date2 fs1) in
  writes fs2 = writes fs1 ++ [(index_path, index_page date2 products)]
  /\ files fs2 = <[index_path := index_page date2 products]> (files fs1).
Proof.
  cbv zeta.
  assert (Hstyle : is_Some (files (snd (build_site products date1 fs)) !! style_path)).
  { rewrite build_site_run. cbv zeta. cbn [files]. apply insert_keeps_present.
    destruct (write_pages_adds date1 products (write_new style_path stylesheet fs))
      as [W H].
    destruct (write_new_present style_path stylesheet fs) as [v Hv].
    exists v. now apply (adds_keep _ _ _ _ H). }
  assert (Hpages : forall x, x ∈ products ->
            is_Some (files (snd (build_site products date1 fs)) !! page_path x)).
  { intros x Hx. rewrite build_site_run. cbv zeta. cbn [files].
    apply insert_keeps_present. now apply write_pages_cover. }
  set (fs1 := snd (build_site products date1 fs)) in *.
  rewrite (build_site_run products date2 fs1). cbv zeta.
  rewrite (write_new_noop _ _ _ Hstyle), (write_pages_noop _ _ _ Hpages).
  split; reflexivity.
Qed.

Lemma write_new_same_but k path text A B :
  same_but k A B ->
  same_but k (write_new path text A) (write_new path text B).
Proof.
  intros H p Hp. unfold write_new.
  destruct (decide (path = k)) as [->|Hne].
  - destruct (bool_decide (is_Some (files A !! k))),
             (bool_decide (is_Some (files B !! k))); cbn [files];
      rewrite ?lookup_insert_ne by congruence; now apply H.
  - rewrite (H path Hne).
    destruct (bool_decide (is_Some (files B !! path))); cbn [files].
    + now apply H.
    + destruct (decide (path = p)) as [->|Hn].
      * now rewrite !lookup_insert_eq.
      * rewrite !lookup_insert_ne by assumption. now apply H.
Qed.

Lemma write_pages_same_but k today products A B :
  same_but k A B ->
  same_but k (write_pages today products A) (write_pages today products B).
Proof.
  revert A B; induction products as [|x r IH]; intros A B H; [exact H|].
  cbn [write_pages]. apply IH. now apply write_new_same_but.
Qed.

(** X20. Runs add up: on one date, a run for some products followed by
    a run for these and further products leaves the same files as one
    run for all of them. *)
Theorem build_site_extend (ps qs : list str) today fs :
  files (snd (build_site (ps ++ qs) today (snd (build_site ps today fs))))
  = files (snd (build_site (ps ++ qs) today fs)).
Proof.
  assert (Hstyle : is_Some (files (snd (build_site ps today fs)) !! style_path)).
  { rewrite build_site_run. cbv zeta. cbn [files]. apply insert_keeps_present.
    destruct (write_pages_adds today ps (write_new style_path stylesheet fs))
      as [W H].
    destruct (write_new_present style_path stylesheet fs) as [v Hv].
    exists v. now apply (adds_keep _ _ _ _ H). }
  assert (Hpages : forall x, x ∈ ps ->
            is_Some (files (snd (build_site ps today fs)) !! page_path x)).
  { intros x Hx. rewrite build_site_run. cbv zeta. cbn [files].
    apply insert_keeps_present. now apply write_pages_cover. }
  assert (Hsame : same_but index_path (snd (build_site ps today fs))
                    (write_pages today ps (write_new style_path stylesheet fs))).
  { intros p Hp. rewrite build_site_run. cbv zeta. cbn [files].
    apply lookup_insert_ne. congruence. }
  set (fs1 := snd (build_site ps today fs)) in *.
  rewrite (build_site_run (ps ++ qs) today fs1),
          (build_site_run (ps ++ qs) today fs). cbv zeta. cbn [files].
  rewrite (write_new_noop _ _ _ Hstyle), !write_pages_app.
  rewrite (write_pages_noop _ _ _ Hpages).
  apply map_eq. intros p. destruct (decide (index_path = p)) as [<-|Hne].
  - now rewrite !lookup_insert_eq.
  - rewrite !lookup_insert_ne by assumption.
    apply (write_pages_same_but index_path today qs _ _ Hsame p). congruence.
Qed.

(** ** The script *)

(** X21. When one of the two packages is not installed, the script
    binds both names to [None], also the name of the package that is
    installed; it then issues no request and builds the site of the
    sample products. *)
Theorem script_without_package installed_requests installed_bs4 today fs :
  installed_requests = None \/ installed_bs4 = None ->
  import_modules installed_requests installed_bs4
  = {| requests := None; BeautifulSoup := None |}
  /\ script installed_requests installed_bs4 today fs
     = ([], Returned (snd (build_site sample_products today fs))).
Proof.
  intros H.
  assert (Hm : import_modules installed_requests installed_bs4
               = {| requests := None; BeautifulSoup := None |}).
  { unfold import_modules.
    destruct installed_requests, installed_bs4; try reflexivity.
    destruct H; discriminate. }
  split; [exact Hm|]. unfold script. now rewrite Hm.
Qed.

End Site.

(** * Instances *)

Lemma fetch_without_modules_witness :
  (requests no_modules = None \/ BeautifulSoup no_modules = None)
  /\ exists msg, fetch_best_sellers no_modules 3 = ([], Raised (ImportError msg)).
Proof.
  split; [left; reflexivity|].
  apply (fetch_without_modules no_modules 3). left. reflexivity.
Defined.

Lemma generate_post_html_pure_witness :
  let title := lit "Widget X Review" in
  let date_str := lit "2024-01-02" in
  let product_name := lit "Widget X" in
  let slug := lit "widget-x" in
  occurs_in (lit "<h1>" ++ title ++ lit "</h1>")
    (generate_post_html title date_str product_name slug)
  /\ join [plus_sign] (split hyphen slug) = lit "widget+x".
Proof.
  cbv zeta.
  destruct (generate_post_html_pure
              (lit "Widget X Review") (lit "2024-01-02") (lit "Widget X")
              (lit "widget-x")
              (lit "Widget X Review") (lit "2024-01-02") (lit "Widget X")
              (lit "widget-x") eq_refl eq_refl eq_refl eq_refl)
    as (_ & Hh1 & _ & Hk).
  split; [exact Hh1|]. rewrite Hk. reflexivity.
Defined.

(** C1, as the specification has it, fails for a product whose slug is
    [index]: its page file is [docs/index.html]; the file exists before
    the run and holds another text after it. *)
Lemma build_site_rewrites_index_page :
  let products := [lit "Index"] in
  let today := lit "2024-01-02" in
  let fs' := snd (build_site identity_table products today fs_with_index) in
  lit "Index" ∈ products
  /\ page_path identity_table (lit "Index") = lit "docs/index.html"
  /\ files fs_with_index !! page_path identity_table (lit "Index")
     = Some (lit "custom")
  /\ files fs' !! page_path identity_table (lit "Index")
     <> Some (lit "custom").
Proof.
  cbv zeta. split; [now left|]. split; [reflexivity|]. split; [reflexivity|].
  intros H. vm_compute in H. discriminate H.
Defined.

Lemma build_site_keeps_files_witness :
  let products := [lit "Widget X"] in
  let today := lit "2024-01-02" in
  let fs' := snd (build_site identity_table products today fs_with_page) in
  lit "docs/widget-x.html" <> index_path
  /\ files fs_with_page !! lit "docs/widget-x.html" = Some (lit "custom")
  /\ files fs' !! lit "docs/widget-x.html" = Some (lit "custom").
Proof.
  cbv zeta.
  assert (Hne : lit "docs/widget-x.html" <> index_path) by discriminate.
  assert (Hin : files fs_with_page !! lit "docs/widget-x.html"
                = Some (lit "custom")) by reflexivity.
  split; [exact Hne|]. split; [exact Hin|].
  exact (proj2 (build_site_keeps_files identity_table [lit "Widget X"]
                  (lit "2024-01-02") fs_with_page) _ _ Hne Hin).
Defined.

Lemma build_site_same_slug_witness :
  let g := lit "Gadget" in
  let a := lit "Widget X" in
  let b := lit "widget x" in
  let today := lit "2024-01-02" in
  let fs' := snd (build_site identity_table [g; a; b] today empty_fs) in
  a <> b
  /\ slugify identity_table a = slugify identity_table b
  /\ slugify identity_table g <> slugify identity_table a
  /\ files empty_fs !! page_path identity_table a = None
  /\ exists W1 W2,
       writes fs' =
       W1 ++ [(lit "docs/widget-x.html", page_html identity_table today a)]
       ++ W2 ++ [(index_path, index_page identity_table today [g; a; b])]
       /\ forall c, (lit "docs/widget-x.html", c) ∉ W1 ++ W2.
Proof.
  cbv zeta.
  assert (Hab : lit "Widget X" <> lit "widget x") by discriminate.
  assert (Hslug : slugify identity_table (lit "Widget X")
                  = slugify identity_table (lit "widget x")) by reflexivity.
  assert (Hg : slugify identity_table (lit "Gadget")
               <> slugify identity_table (lit "Widget X")) by discriminate.
  assert (Hfirst : forall x : str, x ∈ [lit "Gadget"] ->
            slugify identity_table x <> slugify identity_table (lit "Widget X")).
  { intros x Hx. apply list_elem_of_singleton in Hx. subst x. exact Hg. }
  assert (Hnone : files empty_fs !! page_path identity_table (lit "Widget X")
                  = None) by reflexivity.
  split; [exact Hab|]. split; [exact Hslug|]. split; [exact Hg|].
  split; [exact Hnone|].
  destruct (build_site_same_slug identity_table (lit "2024-01-02") empty_fs
              [lit "Gadget"] [] [] (lit "Widget X") (lit "widget x")
              Hab Hslug Hfirst Hnone) as [(W1 & W2 & Hw & Hno) _].
  exists W1, W2. split; [exact Hw | exact Hno].
Defined.

Lemma main_falls_back_witness :
  let e := ImportError
    (lit "Required packages 'requests' and 'beautifulsoup4' not installed") in
  snd (fetch_best_sellers no_modules 3) = Raised e
  /\ isinstance_Exception e = true
  /\ snd (main identity_table no_modules (lit "2024-01-02") empty_fs)
     = Returned (snd (build_site identity_table sample_products
                        (lit "2024-01-02") empty_fs)).
Proof.
  cbv zeta. split; [reflexivity|]. split; [reflexivity|].
  exact (proj1 (proj2 (main_falls_back identity_table no_modules _
                         (lit "2024-01-02") empty_fs eq_refl eq_refl))).
Defined.

(** C2, as the specification has it, fails for an exception that is not
    an instance of [Exception]: an interrupt from the keyboard during
    the request leaves [fetch_best_sellers] and then [main]; the site is
    not built. *)
Lemma main_lets_interrupt_through :
  snd (fetch_best_sellers modules_interrupted 3) = Raised KeyboardInterrupt
  /\ snd (main identity_table modules_interrupted (lit "2024-01-02") empty_fs)
     = Raised KeyboardInterrupt
  /\ snd (main identity_table modules_interrupted (lit "2024-01-02") empty_fs)
     <> Returned (snd (build_site identity_table sample_products
                         (lit "2024-01-02") empty_fs)).
Proof. split; [reflexivity|]. split; [reflexivity|]. discriminate. Defined.

Lemma modules_serving_serves (doc : soup) : serves (modules_serving doc) doc.
Proof. unfold serves. do 3 eexists. repeat split; reflexivity. Qed.

Lemma slugify_ignores_case_witness :
  let a := lit "Widget X" in
  let b := lit "WIDGET x" in
  Forall (fun c => c < 128) a /\ Forall (fun c => c < 128) b
  /\ map ascii_lower a = map ascii_lower b
  /\ slugify identity_table a = slugify identity_table b
  /\ page_path identity_table a = page_path identity_table b.
Proof.
  cbv zeta.
  assert (Ha : Forall (fun c => c < 128) (lit "Widget X"))
    by (repeat (constructor; [reflexivity|]); constructor).
  assert (Hb : Forall (fun c => c < 128) (lit "WIDGET x"))
    by (repeat (constructor; [reflexivity|]); constructor).
  assert (H : map ascii_lower (lit "Widget X") = map ascii_lower (lit "WIDGET x"))
    by reflexivity.
  split; [exact Ha|]. split; [exact Hb|]. split; [exact H|].
  exact (proj2 (slugify_ignores_case identity_table _ _ Ha Hb H)).
Defined.

Lemma fetch_returns_first_names_witness :
  serves (modules_serving two_lists) two_lists /\ (1 <= 3)%Z
  /\ fetch_best_sellers (modules_serving two_lists) 3
     = ([HttpGet url headers 10],
        Returned [lit "Kettle"; lit "Lamp"; lit "Mug"]).
Proof.
  assert (Hn : (1 <= 3)%Z) by lia.
  split; [apply modules_serving_serves|]. split; [exact Hn|].
  exact (proj1 (fetch_returns_first_names (modules_serving two_lists) two_lists 3
                  (modules_serving_serves two_lists) Hn)).
Defined.

Lemma fetch_quota_not_positive_witness :
  serves (modules_serving two_lists) two_lists /\ (-1 <= 0)%Z
  /\ fetch_best_sellers (modules_serving two_lists) (-1)
     = ([HttpGet url headers 10], Returned [lit "Kettle"]).
Proof.
  assert (Hn : (-1 <= 0)%Z) by lia.
  split; [apply modules_serving_serves|]. split; [exact Hn|].
  exact (fetch_quota_not_positive (modules_serving two_lists) two_lists (-1)
           (modules_serving_serves two_lists) Hn).
Defined.

Lemma main_empty_page_witness :
  let doc : soup := fun _ => [] in
  serves (modules_serving doc) doc
  /\ (forall selector, selector ∈ selectors ->
       Forall (fun text => text = []) (doc selector))
  /\ snd (main identity_table (modules_serving doc) (lit "2024-01-02") empty_fs)
     = Returned (snd (build_site identity_table [] (lit "2024-01-02") empty_fs)).
Proof.
  cbv zeta.
  assert (He : forall selector : str, selector ∈ selectors ->
            Forall (fun text : str => text = []) (@nil str))
    by (intros; constructor).
  split; [apply modules_serving_serves|]. split; [exact He|].
  exact (proj1 (proj2 (main_empty_page identity_table
                         (modules_serving (fun _ => [])) (fun _ => [])
                         (lit "2024-01-02") empty_fs
                         (modules_serving_serves (fun _ => [])) He))).
Defined.

Lemma main_without_modules_witness :
  (requests no_modules = None \/ BeautifulSoup no_modules = None)
  /\ main identity_table no_modules (lit "2024-01-02") empty_fs
     = ([], Returned (snd (build_site identity_table sample_products
                             (lit "2024-01-02") empty_fs))).
Proof.
  split; [left; reflexivity|].
  apply (main_without_modules identity_table no_modules). left. reflexivity.
Defined.

Lemma http_error_falls_back_witness :
  (400 <= 404 < 600)%Z
  /\ fetch_best_sellers modules_not_found 3
     = ([HttpGet url headers 10], Raised (HTTPError 404))
  /\ snd (main identity_table modules_not_found (lit "2024-01-02") empty_fs)
     = Returned (snd (build_site identity_table sample_products
                        (lit "2024-01-02") empty_fs)).
Proof.
  assert (Hst : (400 <= 404 < 600)%Z) by lia.
  split; [exact Hst|].
  exact (http_error_falls_back identity_table modules_not_found
           {| requests_get := fun _ _ _ =>
                Returned {| status_code := 404; content := [] |} |}
           {| BeautifulSoup_new := fun _ _ => Returned (fun _ => []) |}
           {| status_code := 404; content := [] |}
           3 (lit "2024-01-02") empty_fs eq_refl eq_refl eq_refl Hst).
Defined.

Lemma build_site_fresh_page_witness :
  let g := lit "Gadget" in
  let x := lit "Widget X" in
  let today := lit "2024-01-02" in
  slugify identity_table g <> slugify identity_table x
  /\ files empty_fs !! page_path identity_table x = None
  /\ slugify identity_table x <> lit "index"
  /\ files (snd (build_site identity_table [g; x] today empty_fs))
       !! lit "docs/widget-x.html"
     = Some (generate_post_html (lit "Widget X Review") today x (lit "widget-x")).
Proof.
  cbv zeta.
  assert (Hg : slugify identity_table (lit "Gadget")
               <> slugify identity_table (lit "Widget X")) by discriminate.
  assert (Hfirst : forall y : str, y ∈ [lit "Gadget"] ->
            slugify identity_table y <> slugify identity_table (lit "Widget X")).
  { intros y Hy. apply list_elem_of_singleton in Hy. subst y. exact Hg. }
  assert (Hnone : files empty_fs !! page_path identity_table (lit "Widget X")
                  = None) by reflexivity.
  assert (Hindex : slugify identity_table (lit "Widget X") <> lit "index")
    by discriminate.
  split; [exact Hg|]. split; [exact Hnone|]. split; [exact Hindex|].
  exact (build_site_fresh_page identity_table (lit "2024-01-02") empty_fs
           [lit "Gadget"] [] (lit "Widget X") Hfirst Hnone Hindex).
Defined.

Lemma build_site_fresh_stylesheet_witness :
  files empty_fs !! style_path = None
  /\ files (snd (build_site identity_table [lit "Widget X"] (lit "2024-01-02")
                   empty_fs)) !! lit "docs/styles.css"
     = Some stylesheet.
Proof.
  split; [reflexivity|].
  apply (build_site_fresh_stylesheet identity_table). reflexivity.
Defined.

Lemma build_site_index_slug_witness :
  let x := lit "Index!" in
  let today := lit "2024-01-02" in
  slugify identity_table x = lit "index"
  /\ files (snd (build_site identity_table [x] today empty_fs))
       !! page_path identity_table x
     = Some (index_page identity_table today [x])
  /\ index_page identity_table today [x] <> page_html identity_table today x.
Proof.
  cbv zeta.
  assert (Hx : slugify identity_table (lit "Index!") = lit "index")
    by reflexivity.
  split; [exact Hx|].
  exact (proj2 (build_site_index_slug identity_table [lit "Index!"]
                  (lit "2024-01-02") empty_fs (lit "Index!") Hx)).
Defined.

Lemma script_without_package_witness :
  let rq := {| requests_get := fun _ _ _ =>
                 Returned {| status_code := 200; content := [] |} |} in
  (Some rq = None \/ @None bs4_module = None)
  /\ script identity_table (Some rq) None (lit "2024-01-02") empty_fs
     = ([], Returned (snd (build_site identity_table sample_products
                             (lit "2024-01-02") empty_fs))).
Proof.
  cbv zeta.
  assert (H : Some {| requests_get := fun _ _ _ =>
                        Returned {| status_code := 200; content := [] |} |}
              = None \/ @None bs4_module = None) by (right; reflexivity).
  split; [exact H|].
  exact (proj2 (script_without_package identity_table _ _
                  (lit "2024-01-02") empty_fs H)).
Defined.
